(** * SCML one-shot utility function and system agents

    A shallow embedding of [scml/oneshot/ufun.py] ([OneShotUFun]) and of
    [DefaultOneShotAdapter.make_ufun] from [scml/oneshot/sysagents.py],
    together with a model of the contract executor described in the
    specification.

    Python integers are unbounded and are modelled by [Z].  True
    division [/] of integers gives the double nearest to the quotient,
    or raises when there is none in range; a double is modelled by the
    rational it stands for, in lowest terms.  Python exceptions are
    modelled by a sum type [result]. *)

From Stdlib Require Import ZArith QArith Qreduction Lia.
From stdpp Require Import gmap strings list fin_maps.

Local Open Scope Z_scope.

(** ** Python primitives *)

Module Py.

(** The built-in exceptions the modelled code can raise. *)
Inductive exn : Set :=
| KeyError
| TypeError
| AttributeError
| ZeroDivisionError
| OverflowError.

(** A computation either raises or returns. *)
Definition result (A : Type) : Type := (exn + A)%type.

Definition ret {A : Type} (a : A) : result A := inr a.
Definition raise {A : Type} (e : exn) : result A := inl e.

Definition bind {A B : Type} (m : result A) (k : A -> result B) : result B :=
  match m with
  | inl e => inl e
  | inr a => k a
  end.

(** [min(a, b)]: the first argument is kept unless the second is
    strictly smaller. *)
Definition min (a b : Z) : Z := if b <? a then b else a.

(** [max(a, b)]: the first argument is kept unless the second is
    strictly larger. *)
Definition max (a b : Z) : Z := if b >? a then b else a.

(** [abs(a)] on an integer. *)
Definition abs (a : Z) : Z := if a <? 0 then - a else a.

(** The integer nearest to [n / d], the even one of the two when [n / d]
    lies half way, for [0 <= n] and [0 < d]. *)
Definition round_half_even (n d : Z) : Z :=
  let q := n / d in
  let r := n mod d in
  if 2 * r <? d then q
  else if d <? 2 * r then q + 1
  else if Z.even q then q else q + 1.

(** The binary exponent of [a / b], that is the [k] with
    [2 ^ k <= a / b < 2 ^ (k + 1)], for [0 < a] and [0 < b]. *)
Definition exponent (a b : Z) : Z :=
  let k := Z.log2 a - Z.log2 b in
  let reached := if 0 <=? k then b * 2 ^ k <=? a else b <=? a * 2 ^ (- k) in
  if reached then k else k - 1.

(** The double nearest to [a / b] for [0 < a] and [0 < b], as the
    rational it stands for: a multiple [m * 2 ^ e] with 53 significant
    bits, or fewer at the smallest exponent -1074; there is none when
    the rounded quotient reaches [2 ^ 1024]. *)
Definition nearest_double (a b : Z) : option Q :=
  let e := Z.max (exponent a b - 52) (-1074) in
  if 0 <=? e then
    let m := round_half_even a (b * 2 ^ e) in
    if 2 ^ 1024 <=? m * 2 ^ e then None else Some (inject_Z (m * 2 ^ e))
  else
    let m := round_half_even (a * 2 ^ (- e)) b in
    Some (m # Z.to_pos (2 ^ (- e))).

(** [a / b] on integers: raises on a zero divisor; otherwise the result
    is the double nearest to the quotient, and [OverflowError] is raised
    when that is out of the range of the doubles. *)
Definition truediv (a b : Z) : result Q :=
  if b =? 0 then raise ZeroDivisionError
  else if a =? 0 then ret 0%Q
  else
    match nearest_double (Z.abs a) (Z.abs b) with
    | None => raise OverflowError
    | Some v => ret (Qred (if Z.sgn a * Z.sgn b <? 0 then - v else v))
    end.
(** [d[k]] on a dictionary. *)
Definition getitem `{Countable K} {V : Type} (d : gmap K V) (k : K) : result V :=
  match d !! k with
  | Some v => ret v
  | None => raise KeyError
  end.

End Py.

Notation "'do' x <- m ; k" := (Py.bind m (fun x => k))
  (at level 10, x name, m at level 100, k at level 200).

(** Methods read and write the attributes of [self]: a computation over
    the object's state that either raises or returns.  A raised
    exception leaves the state as it was when it was raised. *)

Module St.

Definition M (S A : Type) : Type := S -> Py.result A * S.

Definition ret {S A : Type} (a : A) : M S A := fun s => (Py.ret a, s).

Definition bind {S A B : Type} (m : M S A) (k : A -> M S B) : M S B :=
  fun s =>
    match m s with
    | (inl e, s') => (inl e, s')
    | (inr a, s') => k a s'
    end.

(** Reading [self]. *)
Definition get {S : Type} : M S S := fun s => (Py.ret s, s).

(** Assigning to attributes of [self]. *)
Definition modify {S : Type} (f : S -> S) : M S unit := fun s => (Py.ret tt, f s).

(** A computation that does not touch [self]. *)
Definition lift {S A : Type} (r : Py.result A) : M S A := fun s => (r, s).

End St.

Notation "'run' x <- m ; k" := (St.bind m (fun x => k))
  (at level 10, x name, m at level 100, k at level 200).

(** ** The agent-world interface read by the modelled code

    The class behind [awi] is not part of the modelled files; it is
    taken as a record of the attributes that [ufun.py] and
    [sysagents.py] read from it. *)

Module Awi.

(** [awi.profile] *)
Record Profile : Set := { cost : Z }.

Record AWI : Set := {
  my_input_product : Z;
  my_output_product : Z;
  n_products : Z;
  current_exogenous_input_quantity : Z;
  current_exogenous_input_price : Z;
  current_exogenous_output_quantity : Z;
  current_exogenous_output_price : Z;
  profile : Profile;
  current_storage_cost : Z;
  current_delivery_penalty : Z
}.

(** An agent as seen through its [awi] attribute, which is [None]
    until the agent has joined a world ([to_dict] in [sysagents.py]
    guards on it). *)
Record Agent : Set := { awi : option AWI }.

(** [o.awi.<attribute>]: attribute access on [None] raises. *)
Definition deref (o : option AWI) : Py.result AWI :=
  match o with
  | Some a => Py.ret a
  | None => Py.raise Py.AttributeError
  end.

End Awi.

(** ** [scml/oneshot/ufun.py]: the class methods *)

Module UFun.

(** [OneShotUFun.eval] *)
Definition eval (qin qout pin pout production_cost storage_cost delivery_penalty : Z) : Z :=
  pin
  - pout
  - production_cost * Py.min qin qout
  - storage_cost * Py.max 0 (qin - qout)
  - delivery_penalty * Py.max 0 (qout - qin).

(** [OneShotUFun.breach_level] *)
Definition breach_level (qin qout : Z) : Py.result Q :=
  if Py.max qin qout <? 1 then Py.ret 0%Q
  else Py.truediv (Py.abs (qin - qout)) (Py.max qin qout).

(** [OneShotUFun.is_breach] *)
Definition is_breach (qin qout : Z) : bool := negb (qin =? qout).

(** The attributes set by [OneShotUFun.__init__]. *)
Record OneShotUFun : Set := {
  owner : Awi.Agent;
  pin : Z;
  qin : Z;
  pout : Z;
  qout : Z;
  cost : Z;
  storage_cost : Z;
  delivery_penalty : Z
}.

Section Call.

(** [QUANTITY] and [UNIT_PRICE] are imported from [.common], which
    is not part of the modelled files: they are the two keys under
    which an agreement stores its quantity and its unit price. *)
Context `{Countable Key}.
Variables QUANTITY UNIT_PRICE : Key.

(** The attributes of a [negmas.Contract] that [__call__] reads. *)
Record Contract : Type := {
  signed_at : Z;
  annotation : gmap string Z;
  agreement : gmap Key Z
}.

(** The local variables [qin, qout, pin, pout] of [__call__]. *)
Record Locals : Set := { l_qin : Z; l_qout : Z; l_pin : Z; l_pout : Z }.

(** One iteration of [for c in contracts]. *)
Definition call_body (c : Contract) (l : Locals) : St.M OneShotUFun Locals :=
  if signed_at c <? 0 then St.ret l
  else
    run product <- St.lift (Py.getitem (annotation c) "product");
    run self <- St.get;
    run a <- St.lift (Awi.deref (Awi.awi (owner self)));
    let is_seller := product =? Awi.my_output_product a in
    if is_seller then
      run q <- St.lift (Py.getitem (agreement c) QUANTITY);
      let qout' := l_qout l + q in
      run u <- St.lift (Py.getitem (agreement c) UNIT_PRICE);
      run q' <- St.lift (Py.getitem (agreement c) QUANTITY);
      let pout' := l_pout l + u * q' in
      St.ret {| l_qin := l_qin l; l_qout := qout'; l_pin := l_pin l; l_pout := pout' |}
    else
      run q <- St.lift (Py.getitem (agreement c) QUANTITY);
      let qin' := l_qin l + q in
      run u <- St.lift (Py.getitem (agreement c) UNIT_PRICE);
      run q' <- St.lift (Py.getitem (agreement c) QUANTITY);
      let pin' := l_pin l + u * q' in
      St.ret {| l_qin := qin'; l_qout := l_qout l; l_pin := pin'; l_pout := l_pout l |}.

Fixpoint call_loop (contracts : list Contract) (l : Locals) : St.M OneShotUFun Locals :=
  match contracts with
  | [] => St.ret l
  | c :: rest => run l' <- call_body c l; call_loop rest l'
  end.

(** [OneShotUFun.__call__] *)
Definition __call__ (contracts : list Contract) : St.M OneShotUFun Z :=
  run l <- call_loop contracts {| l_qin := 0; l_qout := 0; l_pin := 0; l_pout := 0 |};
  run self <- St.get;
  St.ret (eval (qin self + l_qin l)
               (qout self + l_qout l)
               (pin self + l_pin l)
               (pout self + l_pout l)
               (cost self)
               (storage_cost self)
               (delivery_penalty self)).

(** *** What [__call__] computes, in closed form *)

(** The quantity and the unit price of an agreement that has them. *)
Definition quantity_of (c : Contract) : Z := default 0 (agreement c !! QUANTITY).
Definition price_of (c : Contract) : Z := default 0 (agreement c !! UNIT_PRICE).

(** A signed contract is one whose signing step is not negative. *)
Definition is_signed (c : Contract) : bool := negb (signed_at c <? 0).

(** A contract about product [p]. *)
Definition is_about (p : Z) (c : Contract) : bool :=
  match annotation c !! "product" with
  | Some p' => p' =? p
  | None => false
  end.

(** A signed contract carries a product, a quantity and a unit
    price; a void one is never read. *)
Definition well_formed (c : Contract) : Prop :=
  0 <= signed_at c ->
  is_Some (annotation c !! "product")
  /\ is_Some (agreement c !! QUANTITY)
  /\ is_Some (agreement c !! UNIT_PRICE).

(** The sum of [f] over the contracts selected by [sel]. *)
Definition total (sel : Contract -> bool) (f : Contract -> Z)
    (contracts : list Contract) : Z :=
  foldr (fun c acc => if sel c then f c + acc else acc) 0 contracts.

Definition value_of (c : Contract) : Z := price_of c * quantity_of c.

(** The contracts counted as sales and as purchases by the branches
    of the loop body, for an owner whose output product is [out]. *)
Definition sold (out : Z) (c : Contract) : bool := is_signed c && is_about out c.
Definition bought (out : Z) (c : Contract) : bool := is_signed c && negb (is_about out c).

(** The aggregation as the specification words it: sales are the
    signed contracts about the owner's output product, purchases the
    signed contracts about the owner's input product. *)
Definition evaluate_spec (self : OneShotUFun) (a : Awi.AWI)
    (contracts : list Contract) : Z :=
  let sales c := is_signed c && is_about (Awi.my_output_product a) c in
  let purchases c := is_signed c && is_about (Awi.my_input_product a) c in
  eval (qin self + total purchases quantity_of contracts)
       (qout self + total sales quantity_of contracts)
       (pin self + total purchases value_of contracts)
       (pout self + total sales value_of contracts)
       (cost self)
       (storage_cost self)
       (delivery_penalty self).

End Call.

(** Values passed as arguments: numbers, booleans and the owning
    agent. *)
Inductive value : Set :=
| VNum (z : Z)
| VBool (b : bool)
| VObj (o : Awi.Agent).

(** The parameters of [OneShotUFun.__init__] after [self], each with
    its default when it has one. *)
Definition init_signature : list (string * option value) :=
  [ ("owner", None);
    ("pin", Some (VNum 0));
    ("qin", Some (VNum 0));
    ("pout", Some (VNum 0));
    ("qout", Some (VNum 0));
    ("cost", Some (VNum 0));
    ("storage_cost", Some (VNum 0));
    ("delivery_penalty", Some (VNum 0)) ].

(** Binding the keyword arguments of a call: a keyword that names no
    parameter of a function without [**kwargs] is a [TypeError], and so
    is a keyword that is given twice. *)
Fixpoint bind_keywords (sig : list (string * option value))
    (kwargs : list (string * value)) (bound : gmap string value)
    : Py.result (gmap string value) :=
  match kwargs with
  | [] => Py.ret bound
  | (k, v) :: rest =>
      if bool_decide (k ∈ sig.*1) then
        match bound !! k with
        | Some _ => Py.raise Py.TypeError
        | None => bind_keywords sig rest (<[k := v]> bound)
        end
      else Py.raise Py.TypeError
  end.

(** Parameters left unbound take their default; a parameter without a
    default that is left unbound is a [TypeError]. *)
Fixpoint fill_defaults (sig : list (string * option value))
    (bound : gmap string value) : Py.result (gmap string value) :=
  match sig with
  | [] => Py.ret bound
  | (k, dflt) :: rest =>
      match bound !! k, dflt with
      | Some _, _ => fill_defaults rest bound
      | None, Some d => fill_defaults rest (<[k := d]> bound)
      | None, None => Py.raise Py.TypeError
      end
  end.

(** [OneShotUFun.__init__], called with keyword arguments only as
    [make_ufun] does: the result is the attribute dictionary of the
    new instance. *)
Definition __init__ (kwargs : list (string * value)) : Py.result (gmap string value) :=
  do bound <- bind_keywords init_signature kwargs ∅;
  do args <- fill_defaults init_signature bound;
  do owner <- Py.getitem args "owner";
  do pin <- Py.getitem args "pin";
  do pout <- Py.getitem args "pout";
  do qin <- Py.getitem args "qin";
  do qout <- Py.getitem args "qout";
  do cost <- Py.getitem args "cost";
  do storage_cost <- Py.getitem args "storage_cost";
  do delivery_penalty <- Py.getitem args "delivery_penalty";
  Py.ret (<["owner" := owner]>
          (<["pin" := pin]> (<["pout" := pout]>
          (<["qin" := qin]> (<["qout" := qout]>
          (<["cost" := cost]> (<["storage_cost" := storage_cost]>
          (<["delivery_penalty" := delivery_penalty]> ∅)))))))).

(** A number as [__call__] and [eval] use it ([True] and [False] are
    the integers 1 and 0). *)
Definition num_of (v : value) : option Z :=
  match v with
  | VNum z => Some z
  | VBool b => Some (Z.b2z b)
  | VObj _ => None
  end.

Definition agent_of (v : value) : option Awi.Agent :=
  match v with
  | VObj o => Some o
  | _ => None
  end.

(** The instance built by [__init__] read as the record on which
    [__call__] is modelled. *)
Definition of_attrs (d : gmap string value) : option OneShotUFun :=
  o ← d !! "owner" ≫= agent_of;
  pin ← d !! "pin" ≫= num_of;
  qin ← d !! "qin" ≫= num_of;
  pout ← d !! "pout" ≫= num_of;
  qout ← d !! "qout" ≫= num_of;
  cost ← d !! "cost" ≫= num_of;
  storage_cost ← d !! "storage_cost" ≫= num_of;
  delivery_penalty ← d !! "delivery_penalty" ≫= num_of;
  Some {| owner := o; pin := pin; qin := qin; pout := pout; qout := qout;
          cost := cost; storage_cost := storage_cost;
          delivery_penalty := delivery_penalty |}.

End UFun.

(** ** [scml/oneshot/sysagents.py]: [DefaultOneShotAdapter.make_ufun] *)

Module SysAgents.

(** The attributes of the adapter that [make_ufun] reads and writes. *)
Record DefaultOneShotAdapter : Type := {
  awi : option Awi.AWI;
  ufun : option (gmap string UFun.value)
}.

Definition set_ufun (u : gmap string UFun.value) (self : DefaultOneShotAdapter)
    : DefaultOneShotAdapter :=
  {| awi := awi self; ufun := Some u |}.

(** [self.awi.<attr> if add_exogenous else 0] *)
Definition exogenous (add_exogenous : bool) (self : DefaultOneShotAdapter)
    (attr : Awi.AWI -> Z) : Py.result UFun.value :=
  if add_exogenous then
    do a <- Awi.deref (awi self); Py.ret (UFun.VNum (attr a))
  else Py.ret (UFun.VNum 0).

(** [DefaultOneShotAdapter.make_ufun]: the keyword arguments are
    evaluated in the order in which they are written, then the
    constructor is called, then its result is stored and returned. *)
Definition make_ufun (add_exogenous : bool)
    : St.M DefaultOneShotAdapter (gmap string UFun.value) :=
  run self <- St.get;
  let owner := UFun.VObj {| Awi.awi := awi self |} in
  run qin <- St.lift (exogenous add_exogenous self Awi.current_exogenous_input_quantity);
  run pin <- St.lift (exogenous add_exogenous self Awi.current_exogenous_input_price);
  run qout <- St.lift (exogenous add_exogenous self Awi.current_exogenous_output_quantity);
  run pout <- St.lift (exogenous add_exogenous self Awi.current_exogenous_output_price);
  run production_cost <-
    St.lift (do a <- Awi.deref (awi self); Py.ret (UFun.VNum (Awi.cost (Awi.profile a))));
  run storage_cost <-
    St.lift (do a <- Awi.deref (awi self); Py.ret (UFun.VNum (Awi.current_storage_cost a)));
  run delivery_penalty <-
    St.lift (do a <- Awi.deref (awi self); Py.ret (UFun.VNum (Awi.current_delivery_penalty a)));
  run input_agent <-
    St.lift (do a <- Awi.deref (awi self);
             Py.ret (UFun.VBool (Awi.my_input_product a =? 0)));
  run output_agent <-
    St.lift (do a <- Awi.deref (awi self);
             do b <- Awi.deref (awi self);
             Py.ret (UFun.VBool (Awi.my_output_product a =? Awi.n_products b - 1)));
  run u <- St.lift (UFun.__init__
    [ ("owner", owner);
      ("qin", qin);
      ("pin", pin);
      ("qout", qout);
      ("pout", pout);
      ("production_cost", production_cost);
      ("storage_cost", storage_cost);
      ("delivery_penalty", delivery_penalty);
      ("input_agent", input_agent);
      ("output_agent", output_agent) ]);
  run _u <- St.modify (set_ufun u);
  run self' <- St.get;
  St.lift (match ufun self' with
           | Some r => Py.ret r
           | None => Py.raise Py.AttributeError
           end).

End SysAgents.

(** ** The contract executor and the world stepper

    The world ([scml/scml2020/world.py]) and the factory are not among
    the modelled files; what follows is taken from the specification's
    sections on the data model, the ContractExecutor and the
    WorldStepper. *)

Module Executor.

(** Modelled from the spec: a counterparty of a contract, which is
    either an agent of the world or the outside of it (the source or
    sink of exogenous contracts); the world's agent registry is
    missing. *)
Inductive Party : Set :=
| Agent (id : string)
| External.

(** Modelled from the spec: the Contract of the data model (quantity,
    unit price, signing step, annotation with the traded product and
    the two counterparties); the contract class is missing. *)
Record Contract : Set := {
  product : Z;
  seller : Party;
  buyer : Party;
  quantity : Z;
  unit_price : Z;
  signed_at : Z
}.

(** Modelled from the spec: the FactoryLedger of the data model
    (balance, inventory per product, bankruptcy flag); the factory
    class is missing. *)
Record FactoryLedger : Type := {
  balance : Z;
  inventory : gmap Z Z;
  is_bankrupt : bool
}.

(** Modelled from the spec: the cost rates of one agent and its output
    product (CostModel); the factory profile is missing. *)
Record CostModel : Set := {
  output_product : Z;
  storage_cost : Z;
  delivery_penalty : Z
}.

(** Modelled from the spec: a breach record (the contract, the
    quantity deficit, the responsible party); the breach class is
    missing. *)
Record Breach : Set := {
  breached : Contract;
  deficit : Z;
  responsible : Party
}.

(** Modelled from the spec: the record of one executed contract: the
    quantity the seller delivered and the quantity bought for the buyer
    from the external source; the executor is missing. *)
Record Delivery : Set := {
  executed : Contract;
  handed_over : Z;
  bought_missing : Z
}.

(** Modelled from the spec: the ExecutionReport returned by
    [apply]: the ledgers after the step, the breaches, and the record
    of the executed contracts; the executor is missing. *)
Record ExecutionReport : Type := {
  ledgers : gmap string FactoryLedger;
  breaches : list Breach;
  deliveries : list Delivery
}.

(** Modelled from the spec: the units of a product in a ledger's
    inventory; the factory class is missing. *)
Definition stock (l : FactoryLedger) (p : Z) : Z := default 0 (inventory l !! p).

(** Modelled from the spec: moving [d] units of product [p] into
    ([d] positive) or out of a ledger together with the payment [m];
    the factory class is missing. *)
Definition move (p d m : Z) (l : FactoryLedger) : FactoryLedger :=
  {| balance := balance l + m;
     inventory := <[p := stock l p + d]> (inventory l);
     is_bankrupt := is_bankrupt l |}.

(** Modelled from the spec: what a party can supply of a contract:
    an agent its stock of the product, the outside everything; the
    executor is missing. *)
Definition can_deliver (ls : gmap string FactoryLedger) (c : Contract) : option Z :=
  match seller c with
  | External => Some (quantity c)
  | Agent s =>
      l ← ls !! s;
      if is_bankrupt l then None else Some (Z.min (quantity c) (stock l (product c)))
  end.

(** Modelled from the spec: what a party can pay for of a contract:
    an agent as many units as its balance covers, the outside
    everything; the executor is missing. *)
Definition can_pay (ls : gmap string FactoryLedger) (c : Contract) : option Z :=
  match buyer c with
  | External => Some (quantity c)
  | Agent b =>
      l ← ls !! b;
      if is_bankrupt l then None
      else if unit_price c <=? 0 then Some (quantity c)
      else Some (Z.min (quantity c) (balance l / unit_price c))
  end.

(** Modelled from the spec: the quantity of a contract that is
    executed: the available quantity is delivered and paid; a void
    contract, a contract between two outside parties and a contract
    with a missing or bankrupt party are dropped; the executor is
    missing. *)
Definition delivered (ls : gmap string FactoryLedger) (c : Contract) : option Z :=
  if signed_at c <? 0 then None
  else
    match seller c, buyer c with
    | External, External => None
    | _, _ =>
        qs ← can_deliver ls c;
        qb ← can_pay ls c;
        Some (Z.max 0 (Z.min qs qb))
    end.

(** Modelled from the spec: the effect of a contract on one side: a
    ledger of the world is updated, the outside has none; the executor
    is missing. *)
Definition settle (who : Party) (p d m : Z) (ls : gmap string FactoryLedger)
    : gmap string FactoryLedger :=
  match who with
  | Agent a => alter (move p d m) a ls
  | External => ls
  end.

(** Modelled from the spec: the party answerable for a shortfall: the
    seller when it could not supply the quantity, otherwise the buyer;
    the executor is missing. *)
Definition at_fault (ls : gmap string FactoryLedger) (c : Contract) : Party :=
  match can_deliver ls c with
  | Some qs => if qs <? quantity c then seller c else buyer c
  | None => seller c
  end.

(** Modelled from the spec: the residual inventory of a ledger outside
    a given product; the factory class is missing. *)
Definition residual (l : FactoryLedger) (out : Z) : Z :=
  map_fold (fun p n acc => if p =? out then acc else n + acc) 0 (inventory l).

(** Modelled from the spec: whether a party is the agent [a]; the
    world's agent registry is missing. *)
Definition is_agent (who : Party) (a : string) : bool :=
  match who with
  | Agent b => bool_decide (a = b)
  | External => false
  end.

(** Modelled from the spec: the unmet output commitments of an agent
    among the breaches of the step; the executor is missing. *)
Definition unmet (bs : list Breach) (a : string) (out : Z) : Z :=
  foldr (fun b acc =>
           if is_agent (responsible b) a && is_agent (seller (breached b)) a
              && (product (breached b) =? out)
           then deficit b + acc else acc) 0 bs.

Section Apply.

(** The configuration of the world: the per-agent cost rates, the
    [bankruptcy_limit], whether missing products are bought
    ([buy_missing_products]) and the [catalog_prices]. *)
Variable costs : gmap string CostModel.
Variable bankruptcy_limit : Z.
Variable buy_missing_products : bool.
Variable catalog_prices : gmap Z Z.

(** Modelled from the spec: the reference price of a product; the
    world class is missing. *)
Definition catalog_price (p : Z) : Z := default 0 (catalog_prices !! p).

(** Modelled from the spec: the unmet input demand that is filled from
    the external source: what an agent was to receive beyond what was
    delivered, when [buy_missing_products] is set; otherwise it is left
    as a breach; the executor is missing. *)
Definition fill (c : Contract) (d : Z) : Z :=
  match buyer c with
  | Agent _ => if buy_missing_products then Z.max 0 (quantity c - d) else 0
  | External => 0
  end.

(** Modelled from the spec: executing one contract against the
    ledgers: the seller's inventory decreases by the delivered
    quantity and its balance increases by price times delivered
    quantity, the buyer's inventory increases and its balance
    decreases by the same amounts; what the buyer still misses is
    bought for it from the external source at the catalog price when
    the world is so configured, and what is then still missing is
    recorded as a breach; the executor is missing. *)
Definition execute (c : Contract) (r : ExecutionReport) : ExecutionReport :=
  match delivered (ledgers r) c with
  | None => r
  | Some d =>
      let f := fill c d in
      let m := unit_price c * d in
      let ls1 := settle (seller c) (product c) (- d) m (ledgers r) in
      let ls2 := settle (buyer c) (product c) d (- m) ls1 in
      let ls3 := settle (buyer c) (product c) f (- (catalog_price (product c) * f)) ls2 in
      {| ledgers := ls3;
         breaches :=
           if d + f <? quantity c
           then breaches r ++ [ {| breached := c; deficit := quantity c - d - f;
                                   responsible := at_fault (ledgers r) c |} ]
           else breaches r;
         deliveries :=
           deliveries r ++ [ {| executed := c; handed_over := d; bought_missing := f |} ] |}
  end.

(** Modelled from the spec: the end-of-step charge of an agent:
    storage cost on the residual inventory that is not its output
    product and the delivery penalty on its unmet output
    commitments, with the rates used by the utility evaluator; the
    executor is missing. *)
Definition charge (bs : list Breach) (a : string) (l : FactoryLedger) : FactoryLedger :=
  match costs !! a with
  | None => l
  | Some cm =>
      {| balance := balance l
                    - storage_cost cm * Z.max 0 (residual l (output_product cm))
                    - delivery_penalty cm * Z.max 0 (unmet bs a (output_product cm));
         inventory := inventory l;
         is_bankrupt := is_bankrupt l |}
  end.

(** Modelled from the spec: the bankruptcy check: a ledger whose
    balance is at or below the limit becomes bankrupt and stays so;
    the executor is missing. *)
Definition check_bankruptcy (l : FactoryLedger) : FactoryLedger :=
  {| balance := balance l;
     inventory := inventory l;
     is_bankrupt := is_bankrupt l || (balance l <=? bankruptcy_limit) |}.

(** Modelled from the spec: [ContractExecutor.apply]: the contracts
    are executed one after the other in the given order, then every
    agent is charged and checked for bankruptcy; the executor is
    missing. *)
Definition apply (step : Z) (contracts : list Contract)
    (ls : gmap string FactoryLedger) : ExecutionReport :=
  let r := foldl (fun r c => execute c r)
                 {| ledgers := ls; breaches := []; deliveries := [] |} contracts in
  {| ledgers := map_imap (fun a l => Some (check_bankruptcy (charge (breaches r) a l)))
                         (ledgers r);
     breaches := breaches r;
     deliveries := deliveries r |}.

(** Modelled from the spec: the world between two ticks of the
    WorldStepper: the step counter and the ledgers; the world class
    is missing. *)
Record World : Type := {
  current_step : Z;
  world_ledgers : gmap string FactoryLedger
}.

(** Modelled from the spec: one RUNNING tick of the WorldStepper:
    the exogenous contracts of the step and the contracts signed by
    the negotiation collaborator are executed as one batch, then the
    step counter advances; the world class is missing. *)
Definition tick (exogenous negotiated : list Contract) (w : World)
    : World * ExecutionReport :=
  let r := apply (current_step w) (exogenous ++ negotiated) (world_ledgers w) in
  ({| current_step := current_step w + 1; world_ledgers := ledgers r |}, r).

End Apply.

(** Modelled from the spec: the sum over all agents of the inventory
    of one product; the world class is missing. *)
Definition total_inventory (ls : gmap string FactoryLedger) (p : Z) : Z :=
  map_fold (fun _ l acc => stock l p + acc) 0 ls.

(** Modelled from the spec: whether a party is outside the world; the
    world's agent registry is missing. *)
Definition outside (who : Party) : bool :=
  match who with
  | External => true
  | Agent _ => false
  end.

(** Modelled from the spec: the sum of [f] over the items of a list
    that are about product [p] and satisfy [sel]; the world class is
    missing. *)
Definition volume {A : Type} (about : A -> Z) (sel : A -> bool) (f : A -> Z)
    (p : Z) (l : list A) : Z :=
  foldr (fun x acc => if (about x =? p) && sel x then f x + acc else acc) 0 l.

(** Modelled from the spec: the exogenous supply of a product
    scheduled for a step: the quantities of the step's exogenous
    contracts whose seller is outside; the world class is missing. *)
Definition scheduled_supply (exogenous : list Contract) (p : Z) : Z :=
  volume product (fun c => outside (seller c)) quantity p exogenous.

(** Modelled from the spec: the exogenous sale of a product scheduled
    for a step: the quantities of the step's exogenous contracts whose
    buyer is outside; the world class is missing. *)
Definition scheduled_sale (exogenous : list Contract) (p : Z) : Z :=
  volume product (fun c => outside (buyer c)) quantity p exogenous.

(** Modelled from the spec: the part of the scheduled exogenous supply
    of a product that was not honoured, as recorded in the breaches of
    the step; the world class is missing. *)
Definition unmet_supply (bs : list Breach) (p : Z) : Z :=
  volume (fun b => product (breached b)) (fun b => outside (seller (breached b)))
         deficit p bs.

(** Modelled from the spec: the part of the scheduled exogenous sale
    of a product that was not honoured, as recorded in the breaches of
    the step; the world class is missing. *)
Definition unmet_sale (bs : list Breach) (p : Z) : Z :=
  volume (fun b => product (breached b)) (fun b => outside (buyer (breached b)))
         deficit p bs.

(** Modelled from the spec: the volume of a product that entered the
    world in a step: what outside sellers delivered and what was bought
    from the external source; the world class is missing. *)
Definition entered (ds : list Delivery) (p : Z) : Z :=
  volume (fun x => product (executed x)) (fun x => outside (seller (executed x)))
         handed_over p ds
  + volume (fun x => product (executed x)) (fun _ => true) bought_missing p ds.

(** Modelled from the spec: the volume of a product that left the
    world in a step: what was delivered to outside buyers; the world
    class is missing. *)
Definition departed (ds : list Delivery) (p : Z) : Z :=
  volume (fun x => product (executed x)) (fun x => outside (buyer (executed x)))
         handed_over p ds.

(** Modelled from the spec: the missing products bought from the
    external source for contracts among agents; the world class is
    missing. *)
Definition bought_among_agents (ds : list Delivery) (p : Z) : Z :=
  volume (fun x => product (executed x)) (fun x => negb (outside (seller (executed x))))
         bought_missing p ds.

(** Modelled from the spec: a contract signed by the negotiation
    collaborator is between two agents; the world class is missing. *)
Definition among_agents (c : Contract) : Prop :=
  outside (seller c) = false /\ outside (buyer c) = false.

(** Modelled from the spec: a party that takes part in the step: an
    agent that has a ledger and is not bankrupt; the world class is
    missing. *)
Definition trading (ls : gmap string FactoryLedger) (who : Party) : Prop :=
  match who with
  | Agent a => exists l, ls !! a = Some l /\ is_bankrupt l = false
  | External => False
  end.

(** Modelled from the spec: an exogenous contract of the step is
    signed, of a non-negative quantity, and between the outside and a
    trading agent; the world class is missing. *)
Definition exogenous_for (ls : gmap string FactoryLedger) (c : Contract) : Prop :=
  0 <= signed_at c /\ 0 <= quantity c
  /\ ((outside (seller c) = true /\ trading ls (buyer c))
      \/ (outside (buyer c) = true /\ trading ls (seller c))).

End Executor.

(** ** Concrete inputs used in the examples below *)

Module Examples.

(** An agent of a three-product chain that buys product 1 and sells
    product 2. *)
Definition awi12 : Awi.AWI :=
  {| Awi.my_input_product := 1;
     Awi.my_output_product := 2;
     Awi.n_products := 4;
     Awi.current_exogenous_input_quantity := 0;
     Awi.current_exogenous_input_price := 0;
     Awi.current_exogenous_output_quantity := 0;
     Awi.current_exogenous_output_price := 0;
     Awi.profile := {| Awi.cost := 2 |};
     Awi.current_storage_cost := 5;
     Awi.current_delivery_penalty := 5 |}.

(** Its evaluator, without exogenous contracts. *)
Definition ufun12 : UFun.OneShotUFun :=
  {| UFun.owner := {| Awi.awi := Some awi12 |};
     UFun.pin := 0; UFun.qin := 0; UFun.pout := 0; UFun.qout := 0;
     UFun.cost := 2; UFun.storage_cost := 5; UFun.delivery_penalty := 5 |}.

(** A contract signed at step [t] for [q] units of product [p] at unit
    price [u], with the agreement keyed by name. *)
Definition contract (t p q u : Z) : @UFun.Contract string _ _ :=
  {| UFun.signed_at := t;
     UFun.annotation := {[ "product" := p ]};
     UFun.agreement := {[ "quantity" := q; "unit_price" := u ]} |}.

(** An adapter that has not joined a world, and one that has. *)
Definition detached : SysAgents.DefaultOneShotAdapter :=
  {| SysAgents.awi := None; SysAgents.ufun := None |}.

Definition attached : SysAgents.DefaultOneShotAdapter :=
  {| SysAgents.awi := Some awi12; SysAgents.ufun := None |}.

(** A world of two agents: [a0] holds five units of product 1, [a1]
    holds nothing; both have a balance of 100. *)
Definition ledgers01 : gmap string Executor.FactoryLedger :=
  {[ "a0" := {| Executor.balance := 100;
                Executor.inventory := {[ 1 := 5 ]};
                Executor.is_bankrupt := false |};
     "a1" := {| Executor.balance := 100;
                Executor.inventory := ∅;
                Executor.is_bankrupt := false |} ]}.

Definition world01 : Executor.World :=
  {| Executor.current_step := 3; Executor.world_ledgers := ledgers01 |}.

Definition costs01 : gmap string Executor.CostModel :=
  {[ "a0" := {| Executor.output_product := 1; Executor.storage_cost := 1;
                Executor.delivery_penalty := 2 |};
     "a1" := {| Executor.output_product := 2; Executor.storage_cost := 1;
                Executor.delivery_penalty := 2 |} ]}.

Definition catalog01 : gmap Z Z := {[ 0 := 10; 1 := 20; 2 := 30 ]}.

(** [a0] sells eight units of product 1 to [a1] at a unit price of 10. *)
Definition sale01 : Executor.Contract :=
  {| Executor.product := 1;
     Executor.seller := Executor.Agent "a0";
     Executor.buyer := Executor.Agent "a1";
     Executor.quantity := 8;
     Executor.unit_price := 10;
     Executor.signed_at := 3 |}.

(** Ten units of product 0 arrive at [a0] from outside at a unit price
    of 2. *)
Definition supply0 : Executor.Contract :=
  {| Executor.product := 0;
     Executor.seller := Executor.External;
     Executor.buyer := Executor.Agent "a0";
     Executor.quantity := 10;
     Executor.unit_price := 2;
     Executor.signed_at := 3 |}.

End Examples.

(** ** Python sequences *)

Module PySeq.

(** Indexing a list out of its range raises [IndexError]. *)
Inductive exn : Set := IndexError.

Definition result (A : Type) : Type := (exn + A)%type.

(** [len(l)] *)
Definition len {A : Type} (l : list A) : Z := Z.of_nat (length l).

(** [l[i]]: a negative index counts from the end. *)
Definition getitem {A : Type} (l : list A) (i : Z) : result A :=
  let j := if i <? 0 then i + len l else i in
  if (j <? 0) || (len l <=? j) then inl IndexError
  else
    match l !! Z.to_nat j with
    | Some x => inr x
    | None => inl IndexError
    end.

(** [l * n]: [n] copies of [l] one after the other, none when [n] is
    not positive. *)
Definition repeat {A : Type} (l : list A) (n : Z) : list A :=
  if n <=? 0 then [] else concat (replicate (Z.to_nat n) l).

End PySeq.

(** ** [scml/oneshot/ufun.py]: contracts and the exogenous baseline *)

Module Baseline.

(** The evaluator built with the exogenous amounts of [self] increased
    by the given quantities and payments. *)
Definition shift (dqin dqout dpin dpout : Z) (self : UFun.OneShotUFun) : UFun.OneShotUFun :=
  {| UFun.owner := UFun.owner self;
     UFun.pin := UFun.pin self + dpin;
     UFun.qin := UFun.qin self + dqin;
     UFun.pout := UFun.pout self + dpout;
     UFun.qout := UFun.qout self + dqout;
     UFun.cost := UFun.cost self;
     UFun.storage_cost := UFun.storage_cost self;
     UFun.delivery_penalty := UFun.delivery_penalty self |}.

(** The keyword arguments that pass every attribute of an evaluator to
    [OneShotUFun.__init__]. *)
Definition kwargs_of (u : UFun.OneShotUFun) : list (string * UFun.value) :=
  [ ("owner", UFun.VObj (UFun.owner u));
    ("pin", UFun.VNum (UFun.pin u));
    ("qin", UFun.VNum (UFun.qin u));
    ("pout", UFun.VNum (UFun.pout u));
    ("qout", UFun.VNum (UFun.qout u));
    ("cost", UFun.VNum (UFun.cost u));
    ("storage_cost", UFun.VNum (UFun.storage_cost u));
    ("delivery_penalty", UFun.VNum (UFun.delivery_penalty u)) ].

End Baseline.

(** ** [scml/oneshot/sysagents.py]: the other methods of the adapter *)

Module Adapter.

(** The class of an adapter: [DefaultOneShotAdapter] itself, whose
    [type_name] comes from its base class, or [_SystemAgent], which
    overrides it. *)
Inductive Class : Set :=
| Default (inherited_type_name : string)
| System.

(** The values stored in the dictionary returned by [to_dict]. *)
Inductive value : Set :=
| VStr (s : string)
| VNum (z : Z)
| VNone
| VList (l : list Z).

Section Adapter.

(** The adapted agent object, whether Python counts it as true, and
    what its [create_negotiator] method gives back; all three belong to
    classes outside the modelled files. *)
Variables Obj Neg : Type.
Variable truthy : Obj -> bool.
Variable create_negotiator : Obj -> string -> Neg.

(** The attributes and the class of an adapter. *)
Record DefaultOneShotAdapter : Type := {
  class : Class;
  id : string;
  name : string;
  profile : option Awi.Profile;
  awi : option Awi.AWI;
  _obj : option Obj
}.

(** [type_name]: a property, constant on [_SystemAgent]. *)
Definition type_name (self : DefaultOneShotAdapter) : string :=
  match class self with
  | Default t => t
  | System => "System"
  end.

(** [_SystemAgent.short_type_name] *)
Definition short_type_name (self : DefaultOneShotAdapter) : string := "System".

(** [DefaultOneShotAdapter.to_dict] *)
Definition to_dict (self : DefaultOneShotAdapter) : gmap string value :=
  <["id" := VStr (id self)]>
  (<["name" := VStr (name self)]>
  (<["type" := VStr (type_name self)]>
  (<["level" := match awi self with
                | Some a => VNum (Awi.my_input_product a)
                | None => VNone
                end]>
  (<["levels" := match awi self with
                 | Some a => VList [Awi.my_input_product a]
                 | None => VNone
                 end]> ∅)))).

(** [DefaultOneShotAdapter._respond_to_negotiation_request]: of its
    arguments only [partners] is read.  The result is [None] when
    [not self._obj] holds, that is when there is no adapted object or
    one that counts as false, and otherwise whatever its
    [create_negotiator] gives for the partner's name. *)
Definition _respond_to_negotiation_request (self : DefaultOneShotAdapter)
    (partners : list string) : PySeq.result (option Neg) :=
  match PySeq.getitem (filter (fun p => p <> id self) partners) 0 with
  | inl e => inl e
  | inr partner =>
      match _obj self with
      | None => inr None
      | Some o =>
          if truthy o then inr (Some (create_negotiator o partner))
          else inr None
      end
  end.

(** The assignments of [_SystemAgent.__init__] that follow the call of
    the base class constructor. *)
Definition system_init (role : string) (self : DefaultOneShotAdapter) : DefaultOneShotAdapter :=
  {| class := class self;
     id := role;
     name := role;
     profile := None;
     awi := awi self;
     _obj := _obj self |}.

(** [_SystemAgent.sign_all_contracts] *)
Definition sign_all_contracts {C : Type} (self : DefaultOneShotAdapter)
    (contracts : list C) : list (option string) :=
  PySeq.repeat [Some (id self)] (PySeq.len contracts).

End Adapter.

Arguments class {Obj} _.
Arguments id {Obj} _.
Arguments name {Obj} _.
Arguments profile {Obj} _.
Arguments awi {Obj} _.
Arguments _obj {Obj} _.
Arguments type_name {Obj} self.
Arguments short_type_name {Obj} self.
Arguments to_dict {Obj} self.
Arguments _respond_to_negotiation_request {Obj Neg} truthy create_negotiator self partners.
Arguments system_init {Obj} role self.
Arguments sign_all_contracts {Obj C} self contracts.

End Adapter.

(** ** Further concrete inputs *)

Module MoreExamples.

(** A signed sale of ten units at 30, a cancelled one, a signed purchase
    of ten units at 10, and a signed contract without a unit price. *)
Definition sale : @UFun.Contract string _ _ := Examples.contract 0 2 10 30.
Definition cancelled : @UFun.Contract string _ _ := Examples.contract (-1) 2 7 30.
Definition purchase : @UFun.Contract string _ _ := Examples.contract 0 1 10 10.

Definition unpriced : @UFun.Contract string _ _ :=
  {| UFun.signed_at := 0;
     UFun.annotation := {[ "product" := 2 ]};
     UFun.agreement := {[ "quantity" := 3 ]} |}.

(** A cancelled contract that holds nothing at all. *)
Definition blank : @UFun.Contract string _ _ :=
  {| UFun.signed_at := -1; UFun.annotation := ∅; UFun.agreement := ∅ |}.

(** An evaluator whose owner has not joined a world. *)
Definition orphan : UFun.OneShotUFun :=
  {| UFun.owner := {| Awi.awi := None |};
     UFun.pin := 0; UFun.qin := 0; UFun.pout := 0; UFun.qout := 0;
     UFun.cost := 2; UFun.storage_cost := 5; UFun.delivery_penalty := 5 |}.

(** An adapter of the system class around no agent, and a default
    adapter around an agent whose negotiators are stood for by the
    name they are given. *)
Definition system_adapter : Adapter.DefaultOneShotAdapter unit :=
  {| Adapter.class := Adapter.System;
     Adapter.id := "";
     Adapter.name := "";
     Adapter.profile := None;
     Adapter.awi := None;
     Adapter._obj := None |}.

Definition seller_adapter : Adapter.DefaultOneShotAdapter unit :=
  {| Adapter.class := Adapter.Default "OneShotAgent";
     Adapter.id := "a0";
     Adapter.name := "a0";
     Adapter.profile := None;
     Adapter.awi := Some Examples.awi12;
     Adapter._obj := Some tt |}.

Definition named (o : unit) (name : string) : string := name.

Definition always (o : unit) : bool := true.

End MoreExamples.

(** * Properties *)

(** ** Python primitives *)

Lemma py_min_spec (a b : Z) : Py.min a b = Z.min a b.
Proof. unfold Py.min. destruct (Z.ltb_spec b a); lia. Qed.

Lemma py_max_spec (a b : Z) : Py.max a b = Z.max a b.
Proof.
  unfold Py.max. rewrite Z.gtb_ltb. destruct (Z.ltb_spec a b); lia.
Qed.

Lemma py_abs_spec (a : Z) : Py.abs a = Z.abs a.
Proof. unfold Py.abs. destruct (Z.ltb_spec a 0); lia. Qed.

(** *** Rounding to the nearest double *)

Lemma round_half_even_le (n d N : Z) :
  0 < d -> n <= N * d -> Py.round_half_even n d <= N.
Proof.
  intros Hd Hn. unfold Py.round_half_even.
  pose proof (Z.div_mod n d ltac:(lia)) as Hdiv.
  pose proof (Z.mod_pos_bound n d Hd) as Hmod.
  destruct (Z.ltb_spec (2 * (n mod d)) d); [nia |].
  destruct (Z.ltb_spec d (2 * (n mod d))); [nia |].
  destruct (Z.even (n / d)); nia.
Qed.

Lemma round_half_even_ge (n d N : Z) :
  0 < d -> N * d <= n -> N <= Py.round_half_even n d.
Proof.
  intros Hd Hn. unfold Py.round_half_even.
  pose proof (Z.div_mod n d ltac:(lia)) as Hdiv.
  pose proof (Z.mod_pos_bound n d Hd) as Hmod.
  destruct (Z.ltb_spec (2 * (n mod d)) d); [nia |].
  destruct (Z.ltb_spec d (2 * (n mod d))); [nia |].
  destruct (Z.even (n / d)); nia.
Qed.

Lemma round_half_even_exact (q d : Z) : 0 < d -> Py.round_half_even (q * d) d = q.
Proof.
  intros Hd. unfold Py.round_half_even.
  rewrite Z.div_mul, Z.mod_mul by lia.
  destruct (Z.ltb_spec (2 * 0) d); [reflexivity | lia].
Qed.

Lemma exponent_le (a b : Z) : Py.exponent a b <= Z.log2 a - Z.log2 b.
Proof. unfold Py.exponent. destruct (if _ <=? _ then _ else _); lia. Qed.

Lemma exponent_ge (a b : Z) : Z.log2 a - Z.log2 b - 1 <= Py.exponent a b.
Proof. unfold Py.exponent. destruct (if _ <=? _ then _ else _); lia. Qed.

Lemma exponent_same (a : Z) : 0 < a -> Py.exponent a a = 0.
Proof.
  intros Ha. unfold Py.exponent. rewrite Z.sub_diag.
  change (0 <=? 0) with true. change (2 ^ 0) with 1. cbn iota.
  now rewrite Z.mul_1_r, Z.leb_refl.
Qed.

Lemma pow2_pos (k : Z) : 0 <= k -> 0 < 2 ^ k.
Proof. intros Hk. apply Z.pow_pos_nonneg; lia. Qed.

Lemma to_pos_pow2 (k : Z) : 0 <= k -> Z.pos (Z.to_pos (2 ^ k)) = 2 ^ k.
Proof. intros Hk. apply Z2Pos.id. now apply pow2_pos. Qed.

(** *** Division *)

(** A quotient of positive integers that is at most 1 rounds to a
    double between 0 and 1. *)
Lemma nearest_double_unit (a b : Z) :
  0 < a <= b ->
  exists v : Q, Py.nearest_double a b = Some v /\ (0 <= v)%Q /\ (v <= 1)%Q.
Proof.
  intros Hab. unfold Py.nearest_double.
  set (e := Z.max (Py.exponent a b - 52) (-1074)).
  assert (He : e < 0).
  { pose proof (exponent_le a b). pose proof (Z.log2_le_mono a b ltac:(lia)). lia. }
  destruct (Z.leb_spec 0 e) as [Hge | _]; [lia |].
  pose proof (pow2_pos (- e) ltac:(lia)) as Hpow.
  eexists. split; [reflexivity |]. unfold Qle. cbn [Qnum Qden].
  rewrite to_pos_pow2 by lia. split.
  - rewrite Z.mul_1_r. cbn [Z.mul].
    apply (round_half_even_ge _ _ 0); [lia |]. nia.
  - rewrite Z.mul_1_r, Z.mul_1_l.
    apply round_half_even_le; [lia |]. nia.
Qed.

Lemma truediv_unit (a b : Z) :
  0 <= a <= b -> 1 <= b ->
  exists v : Q, Py.truediv a b = Py.ret v /\ (0 <= v)%Q /\ (v <= 1)%Q.
Proof.
  intros Hab Hb. unfold Py.truediv.
  destruct (Z.eqb_spec b 0); [lia |].
  destruct (Z.eqb_spec a 0).
  { exists 0%Q. split; [reflexivity |]. split; discriminate. }
  rewrite !Z.abs_eq by lia.
  destruct (nearest_double_unit a b ltac:(lia)) as (v & -> & H0 & H1).
  assert (Hsgn : (Z.sgn a * Z.sgn b <? 0) = false).
  { rewrite !Z.sgn_pos by lia. reflexivity. }
  rewrite Hsgn. exists (Qred v). split; [reflexivity |].
  now rewrite Qred_correct.
Qed.

Lemma truediv_of_zero (b : Z) : b <> 0 -> Py.truediv 0 b = Py.ret 0%Q.
Proof. intros Hb. unfold Py.truediv. destruct (Z.eqb_spec b 0); [contradiction | reflexivity]. Qed.

Lemma truediv_same (a : Z) : 0 < a -> Py.truediv a a = Py.ret 1%Q.
Proof.
  intros Ha. unfold Py.truediv.
  destruct (Z.eqb_spec a 0); [lia |].
  rewrite Z.abs_eq by lia. unfold Py.nearest_double.
  rewrite exponent_same by exact Ha.
  change (Z.max (0 - 52) (-1074)) with (-52). cbn [Z.leb Z.compare Z.opp].
  rewrite (Z.mul_comm a), round_half_even_exact by exact Ha.
  assert (Hsgn : (Z.sgn a * Z.sgn a <? 0) = false).
  { rewrite !Z.sgn_pos by lia. reflexivity. }
  rewrite Hsgn. reflexivity.
Qed.

Lemma truediv_outcome (a b : Z) :
  b <> 0 ->
  (exists v : Q, Py.truediv a b = Py.ret v) \/ Py.truediv a b = Py.raise Py.OverflowError.
Proof.
  intros Hb. unfold Py.truediv.
  destruct (Z.eqb_spec b 0); [contradiction |].
  destruct (a =? 0); [left; eauto |].
  destruct (Py.nearest_double _ _); [left; eauto | now right].
Qed.

Lemma truediv_zero (a : Z) : Py.truediv a 0 = Py.raise Py.ZeroDivisionError.
Proof. reflexivity. Qed.

(** A positive integer lies between two consecutive powers of 2. *)
Lemma log2_bounds (a : Z) : 0 < a -> 2 ^ Z.log2 a <= a < 2 ^ (Z.log2 a + 1).
Proof. intros Ha. pose proof (Z.log2_spec a Ha). now rewrite <- Z.add_1_r in *. Qed.

(** Scaled by the power of 2 chosen by [nearest_double], a quotient of
    positive integers is at least 1 unless it falls below the smallest
    exponent. *)
Lemma scaled_at_least_one (a b : Z) :
  0 < a <= b -> b < 2 ^ 1074 ->
  let e := Z.max (Py.exponent a b - 52) (-1074) in
  b <= a * 2 ^ (- e).
Proof.
  intros Hab Hb e.
  pose proof (exponent_le a b) as Hexp.
  pose proof (Z.log2_le_mono a b ltac:(lia)) as Hmono.
  pose proof (Z.log2_nonneg a) as Hla.
  destruct (log2_bounds a ltac:(lia)) as [Ha _].
  destruct (log2_bounds b ltac:(lia)) as [_ Hb'].
  destruct (Z.max_spec (Py.exponent a b - 52) (-1074)) as [[_ He] | [_ He]]; fold e in He.
  - rewrite He. change (- -1074) with 1074.
    pose proof (pow2_pos 1074 ltac:(lia)). nia.
  - assert (Hle : 2 ^ (52 + Z.log2 b - Z.log2 a) <= 2 ^ (- e)).
    { apply Z.pow_le_mono_r; lia. }
    assert (Hsum : 2 ^ Z.log2 a * 2 ^ (52 + Z.log2 b - Z.log2 a) = 2 ^ (52 + Z.log2 b)).
    { rewrite <- Z.pow_add_r by lia. f_equal. lia. }
    assert (Hnext : 2 ^ (Z.log2 b + 1) <= 2 ^ (52 + Z.log2 b)).
    { apply Z.pow_le_mono_r; lia. }
    pose proof (pow2_pos (52 + Z.log2 b - Z.log2 a) ltac:(lia)).
    nia.
Qed.

Lemma nearest_double_positive (a b : Z) :
  0 < a <= b -> b < 2 ^ 1074 ->
  exists v : Q, Py.nearest_double a b = Some v /\ (0 < v)%Q.
Proof.
  intros Hab Hb. pose proof (scaled_at_least_one a b Hab Hb) as Hscaled.
  cbn zeta in Hscaled. unfold Py.nearest_double.
  set (e := Z.max (Py.exponent a b - 52) (-1074)) in *.
  assert (He : e < 0).
  { pose proof (exponent_le a b). pose proof (Z.log2_le_mono a b ltac:(lia)). lia. }
  destruct (Z.leb_spec 0 e) as [Hge | _]; [lia |].
  eexists. split; [reflexivity |]. unfold Qlt. cbn [Qnum Qden].
  rewrite Z.mul_1_r. cbn [Z.mul].
  apply Z.lt_le_trans with 1; [lia |].
  apply round_half_even_ge; lia.
Qed.

Lemma truediv_positive (a b : Z) :
  0 < a <= b -> b < 2 ^ 1074 ->
  exists v : Q, Py.truediv a b = Py.ret v /\ (0 < v)%Q.
Proof.
  intros Hab Hb. unfold Py.truediv.
  destruct (Z.eqb_spec b 0); [lia |].
  destruct (Z.eqb_spec a 0); [lia |].
  rewrite !Z.abs_eq by lia.
  destruct (nearest_double_positive a b Hab Hb) as (v & -> & Hv).
  assert (Hsgn : (Z.sgn a * Z.sgn b <? 0) = false).
  { rewrite !Z.sgn_pos by lia. reflexivity. }
  rewrite Hsgn. exists (Qred v). split; [reflexivity |].
  now rewrite Qred_correct.
Qed.

(** The exponent chosen for a quotient of at least 1 is not negative
    and its power of 2 does not exceed the quotient. *)
Lemma exponent_lower (a b : Z) :
  0 < b <= a -> 0 <= Py.exponent a b /\ b * 2 ^ Py.exponent a b <= a.
Proof.
  intros Hab. unfold Py.exponent.
  pose proof (Z.log2_le_mono b a ltac:(lia)) as Hmono.
  pose proof (Z.log2_nonneg b) as Hlb.
  set (k := Z.log2 a - Z.log2 b).
  assert (Hk : 0 <= k) by (subst k; lia).
  destruct (Z.leb_spec 0 k) as [_ | Hneg]; [| lia].
  destruct (Z.leb_spec (b * 2 ^ k) a) as [Hreached | Hnot]; [split; [exact Hk | exact Hreached] |].
  assert (Hk1 : 1 <= k).
  { destruct (Z.eq_dec k 0) as [Hk0 | Hk0]; [| lia].
    rewrite Hk0 in Hnot. change (2 ^ 0) with 1 in Hnot. lia. }
  split; [lia |].
  destruct (log2_bounds a ltac:(lia)) as [Ha _].
  destruct (log2_bounds b ltac:(lia)) as [_ Hb].
  assert (Hsum : 2 ^ (Z.log2 b + 1) * 2 ^ (k - 1) = 2 ^ Z.log2 a).
  { rewrite <- Z.pow_add_r by lia. f_equal. subst k. lia. }
  pose proof (pow2_pos (k - 1) ltac:(lia)). nia.
Qed.

(** A quotient above 1 of integers of ordinary size rounds to a double
    above 1, unless it is out of range. *)
Lemma nearest_double_above_one (a b : Z) :
  0 < b < a -> b <= 2 ^ 52 ->
  forall v : Q, Py.nearest_double a b = Some v -> (1 < v)%Q.
Proof.
  intros Hab Hb v. unfold Py.nearest_double.
  destruct (exponent_lower a b ltac:(lia)) as [HE Hlow].
  set (E := Py.exponent a b) in *.
  rewrite Z.max_l by lia.
  destruct (Z.leb_spec 0 (E - 52)) as [Hge | Hlt].
  - cbn zeta.
    destruct (2 ^ 1024 <=? Py.round_half_even a (b * 2 ^ (E - 52)) * 2 ^ (E - 52));
      [discriminate |].
    intros [= <-]. unfold Qlt, inject_Z. cbn [Qnum Qden]. rewrite !Z.mul_1_r. cbn [Z.mul].
    pose proof (pow2_pos (E - 52) Hge) as Hpow.
    assert (Hm : 2 ^ 52 <= Py.round_half_even a (b * 2 ^ (E - 52))).
    { apply round_half_even_ge; [nia |].
      replace (2 ^ 52 * (b * 2 ^ (E - 52))) with (b * (2 ^ 52 * 2 ^ (E - 52))) by lia.
      rewrite <- Z.pow_add_r by lia. now replace (52 + (E - 52)) with E by lia. }
    change (2 ^ 52) with 4503599627370496 in Hm. nia.
  - intros [= <-]. unfold Qlt. cbn [Qnum Qden].
    rewrite to_pos_pow2 by lia. rewrite Z.mul_1_r, Z.mul_1_l.
    pose proof (pow2_pos (- (E - 52)) ltac:(lia)) as Hpow.
    apply Z.lt_le_trans with (2 ^ (- (E - 52)) + 1); [lia |].
    apply round_half_even_ge; [lia |].
    destruct (Z.eq_dec E 0) as [HE0 | HE0].
    + rewrite HE0 in *. change (- (0 - 52)) with 52 in *. nia.
    + assert (H2 : 2 * b <= a).
      { assert (2 ^ 1 <= 2 ^ E) by (apply Z.pow_le_mono_r; lia).
        change (2 ^ 1) with 2 in *. nia. }
      nia.
Qed.

Lemma truediv_above_one (a b : Z) :
  0 < b < a -> b <= 2 ^ 52 ->
  Py.truediv a b = Py.raise Py.OverflowError
  \/ exists v : Q, Py.truediv a b = Py.ret v /\ (1 < v)%Q.
Proof.
  intros Hab Hb. unfold Py.truediv.
  destruct (Z.eqb_spec b 0); [lia |].
  destruct (Z.eqb_spec a 0); [lia |].
  rewrite !Z.abs_eq by lia.
  pose proof (nearest_double_above_one a b Hab Hb) as Habove.
  destruct (Py.nearest_double a b) as [v |]; [right | now left].
  assert (Hsgn : (Z.sgn a * Z.sgn b <? 0) = false).
  { rewrite !Z.sgn_pos by lia. reflexivity. }
  rewrite Hsgn. exists (Qred v). split; [reflexivity |].
  rewrite Qred_correct. now apply Habove.
Qed.

(** The model on the quotients of some small and some very large
    integers: 6/10 and 1/3 are the doubles 0.6 and 0.333..., a quotient
    half way between two doubles goes to the even one, a quotient of
    400 digits is out of range and its inverse is 0. *)
Example truediv_examples :
  Py.truediv 6 10 = Py.ret (5404319552844595 # 9007199254740992)
  /\ Py.truediv 1 3 = Py.ret (6004799503160661 # 18014398509481984)
  /\ Py.truediv (-7) 2 = Py.ret (-7 # 2)
  /\ Py.truediv (2 ^ 53 + 1) (2 ^ 53) = Py.ret 1%Q
  /\ Py.truediv (10 ^ 400 + 1) 1 = Py.raise Py.OverflowError
  /\ Py.truediv 1 (10 ^ 400 + 1) = Py.ret 0%Q
  /\ Py.truediv 1 0 = Py.raise Py.ZeroDivisionError.
Proof. vm_compute. repeat split; reflexivity. Qed.

(** ** [OneShotUFun.eval] *)

Lemma eval_min_max (qin qout pin pout pc sc dp : Z) :
  UFun.eval qin qout pin pout pc sc dp
  = pin - pout - pc * Z.min qin qout - sc * Z.max 0 (qin - qout) - dp * Z.max 0 (qout - qin).
Proof. unfold UFun.eval. now rewrite py_min_spec, !py_max_spec. Qed.

(** C1: [eval] returns [pin - pout - production_cost * min(qin, qout)
    - storage_cost * max(0, qin - qout) - delivery_penalty * max(0, qout - qin)]
    for all integer arguments, and -220 on the arguments of the
    specification's example. *)
Theorem eval_profit_formula (qin qout pin pout production_cost storage_cost delivery_penalty : Z) :
  UFun.eval qin qout pin pout production_cost storage_cost delivery_penalty
  = pin - pout
    - production_cost * Z.min qin qout
    - storage_cost * Z.max 0 (qin - qout)
    - delivery_penalty * Z.max 0 (qout - qin)
  /\ UFun.eval 10 10 100 300 2 5 5 = -220.
Proof.
  split; [apply eval_min_max | reflexivity].
Qed.

(** The three cost terms of [eval] according to how supply and demand
    compare: when [qout > qin] the storage term vanishes and the
    penalty is paid on the difference, and symmetrically. *)
Lemma eval_shortfall (qin qout pin pout pc sc dp : Z) :
  qin <= qout ->
  UFun.eval qin qout pin pout pc sc dp = pin - pout - pc * qin - dp * (qout - qin).
Proof.
  intros Hle. rewrite eval_min_max.
  rewrite Z.min_l, Z.max_l, Z.max_r by lia. lia.
Qed.

Lemma eval_surplus (qin qout pin pout pc sc dp : Z) :
  qout <= qin ->
  UFun.eval qin qout pin pout pc sc dp = pin - pout - pc * qout - sc * (qin - qout).
Proof.
  intros Hle. rewrite eval_min_max.
  rewrite Z.min_r, Z.max_r, Z.max_l by lia. lia.
Qed.

(** C7: with the quantities and the cost rates fixed, [eval] does not
    decrease when [pin] grows and does not increase when [pout] grows. *)
Theorem eval_monotone (qin qout pin pin' pout pout' production_cost storage_cost delivery_penalty : Z) :
  (pin <= pin' ->
   UFun.eval qin qout pin pout production_cost storage_cost delivery_penalty
   <= UFun.eval qin qout pin' pout production_cost storage_cost delivery_penalty)
  /\ (pout <= pout' ->
      UFun.eval qin qout pin pout' production_cost storage_cost delivery_penalty
      <= UFun.eval qin qout pin pout production_cost storage_cost delivery_penalty).
Proof.
  unfold UFun.eval. split; intros Hle; lia.
Qed.

Lemma eval_monotone_witness :
  UFun.eval 4 10 100 300 2 5 5 <= UFun.eval 4 10 150 300 2 5 5
  /\ UFun.eval 4 10 100 350 2 5 5 <= UFun.eval 4 10 100 300 2 5 5.
Proof.
  split.
  - apply (proj1 (eval_monotone 4 10 100 150 300 300 2 5 5)). lia.
  - apply (proj2 (eval_monotone 4 10 100 100 300 350 2 5 5)). lia.
Defined.

(** ** [OneShotUFun.is_breach] *)

(** C6: [is_breach(qin, qout)] is true exactly when the two quantities
    differ; it is false on equal quantities, zero included. *)
Theorem is_breach_iff (qin qout : Z) :
  (UFun.is_breach qin qout = true <-> qin <> qout)
  /\ (forall q : Z, UFun.is_breach q q = false)
  /\ UFun.is_breach 0 0 = false.
Proof.
  unfold UFun.is_breach. split; [| split].
  - rewrite negb_true_iff. apply Z.eqb_neq.
  - intros q. now rewrite Z.eqb_refl.
  - reflexivity.
Qed.

(** ** [OneShotUFun.breach_level] *)

Lemma breach_level_early (qin qout : Z) :
  Z.max qin qout < 1 -> UFun.breach_level qin qout = Py.ret 0%Q.
Proof.
  intros Hlt. unfold UFun.breach_level. rewrite py_max_spec.
  destruct (Z.ltb_spec (Z.max qin qout) 1); [reflexivity | lia].
Qed.

Lemma breach_level_divides (qin qout : Z) :
  1 <= Z.max qin qout ->
  UFun.breach_level qin qout
  = Py.truediv (Py.abs (qin - qout)) (Py.max qin qout).
Proof.
  intros Hge. unfold UFun.breach_level. rewrite !py_max_spec.
  destruct (Z.ltb_spec (Z.max qin qout) 1); [lia | reflexivity].
Qed.

Lemma breach_level_divides_nonneg (qin qout : Z) :
  1 <= Z.max qin qout ->
  UFun.breach_level qin qout = Py.truediv (Z.abs (qin - qout)) (Z.max qin qout).
Proof.
  intros Hge. rewrite breach_level_divides by exact Hge.
  now rewrite py_abs_spec, py_max_spec.
Qed.

(** C3, as stated, fails: with no input and an output of five units the
    mismatch is total and the level is exactly 1, which is not below 1. *)
Lemma breach_level_reaches_one :
  ~ (forall qin qout : Z, 0 <= qin -> 0 <= qout ->
       exists v : Q, UFun.breach_level qin qout = Py.ret v /\ (0 <= v)%Q /\ (v < 1)%Q).
Proof.
  intros Hall. destruct (Hall 0 5) as (v & Hv & _ & Hlt); [lia | lia |].
  vm_compute in Hv. injection Hv as <-. vm_compute in Hlt. discriminate.
Qed.

(** C3, amended: for non-negative quantities [breach_level] lies in the
    closed interval from 0 to 1. *)
Theorem breach_level_range (qin qout : Z) :
  0 <= qin -> 0 <= qout ->
  exists v : Q, UFun.breach_level qin qout = Py.ret v /\ (0 <= v)%Q /\ (v <= 1)%Q.
Proof.
  intros Hin Hout. destruct (Z.lt_ge_cases (Z.max qin qout) 1) as [Hlt | Hge].
  - exists 0%Q. split; [now apply breach_level_early |]. split; discriminate.
  - rewrite breach_level_divides_nonneg by exact Hge. apply truediv_unit; lia.
Qed.

Lemma breach_level_range_witness :
  exists v : Q, UFun.breach_level 0 5 = Py.ret v /\ (0 <= v)%Q /\ (v <= 1)%Q.
Proof. apply (breach_level_range 0 5); lia. Defined.



(** C10, as stated, fails: [breach_level] is not total: with a quantity
    of 1 against a negative one of 400 digits the divisor is 1 and the
    quotient is out of the range of the doubles, so that the division
    raises [OverflowError]. *)
Lemma breach_level_overflows :
  ~ (forall qin qout : Z, exists v : Q, UFun.breach_level qin qout = Py.ret v).
Proof.
  intros Hall. destruct (Hall 1 (- 10 ^ 400)) as [v Hv].
  vm_compute in Hv. discriminate.
Qed.

(** C10, amended: [breach_level] never divides by zero: on every pair
    of integers it returns 0 without dividing when
    [max(qin, qout) < 1], and otherwise divides by [max(qin, qout)],
    which is at least 1.  It returns a value on every pair of
    non-negative integers; on any pair it returns a value or raises
    [OverflowError], and nothing else. *)
Theorem breach_level_never_divides_by_zero (qin qout : Z) :
  UFun.breach_level qin qout <> Py.raise Py.ZeroDivisionError
  /\ (Py.max qin qout < 1 -> UFun.breach_level qin qout = Py.ret 0%Q)
  /\ (~ Py.max qin qout < 1 ->
      UFun.breach_level qin qout = Py.truediv (Py.abs (qin - qout)) (Py.max qin qout)
      /\ 1 <= Py.max qin qout)
  /\ ((exists v : Q, UFun.breach_level qin qout = Py.ret v)
      \/ UFun.breach_level qin qout = Py.raise Py.OverflowError)
  /\ (0 <= qin -> 0 <= qout -> exists v : Q, UFun.breach_level qin qout = Py.ret v).
Proof.
  rewrite py_max_spec.
  destruct (Z.lt_ge_cases (Z.max qin qout) 1) as [Hlt | Hge].
  - rewrite breach_level_early by exact Hlt.
    split; [discriminate |]. split; [reflexivity |]. split; [lia |].
    split; [left |]; eauto.
  - assert (Hout : (exists v : Q, UFun.breach_level qin qout = Py.ret v)
                   \/ UFun.breach_level qin qout = Py.raise Py.OverflowError).
    { rewrite breach_level_divides_nonneg by exact Hge. apply truediv_outcome. lia. }
    split; [destruct Hout as [[v ->] | ->]; discriminate |].
    split; [lia |]. split; [| split; [exact Hout |]].
    + intros _. split; [| exact Hge].
      rewrite <- (py_max_spec qin qout). now apply breach_level_divides.
    + intros Hin Hnn. rewrite breach_level_divides_nonneg by exact Hge.
      destruct (truediv_unit (Z.abs (qin - qout)) (Z.max qin qout)) as (v & Hv & _);
        [lia | lia | eauto].
Qed.

Lemma breach_level_never_divides_by_zero_witness :
  UFun.breach_level (-2) (-7) = Py.ret 0%Q
  /\ (UFun.breach_level 3 8 = Py.truediv (Py.abs (3 - 8)) (Py.max 3 8)
      /\ 1 <= Py.max 3 8)
  /\ exists v : Q, UFun.breach_level 3 8 = Py.ret v.
Proof.
  split; [| split].
  - apply (proj1 (proj2 (breach_level_never_divides_by_zero (-2) (-7)))).
    vm_compute. reflexivity.
  - apply (proj1 (proj2 (proj2 (breach_level_never_divides_by_zero 3 8)))).
    vm_compute. discriminate.
  - apply (proj2 (proj2 (proj2 (proj2 (breach_level_never_divides_by_zero 3 8))))); lia.
Defined.

Example breach_level_examples :
  UFun.breach_level 4 10 = Py.ret (5404319552844595 # 9007199254740992)
  /\ UFun.breach_level 7 7 = Py.ret 0%Q
  /\ UFun.breach_level 5 (-2) = Py.ret (3152519739159347 # 2251799813685248)
  /\ UFun.breach_level 1 (- 10 ^ 400) = Py.raise Py.OverflowError
  /\ UFun.breach_level (10 ^ 400) (10 ^ 400 + 1) = Py.ret 0%Q.
Proof. vm_compute. repeat split; reflexivity. Qed.

Example eval_spec_example : UFun.eval 10 10 100 300 2 5 5 = -220.
Proof. reflexivity. Qed.

Example breach_level_0_5 : UFun.breach_level 0 5 = Py.ret 1%Q.
Proof. vm_compute. reflexivity. Qed.
(** ** [OneShotUFun.__call__] *)

Section CallProperties.

Context `{Countable Key}.
Variables QUANTITY UNIT_PRICE : Key.

Local Abbreviation Contract := (@UFun.Contract Key _ _).
Local Abbreviation call_body := (UFun.call_body QUANTITY UNIT_PRICE).
Local Abbreviation call_loop := (UFun.call_loop QUANTITY UNIT_PRICE).
Local Abbreviation __call__ := (UFun.__call__ QUANTITY UNIT_PRICE).
Local Abbreviation quantity_of := (UFun.quantity_of QUANTITY).
Local Abbreviation value_of := (UFun.value_of QUANTITY UNIT_PRICE).
Local Abbreviation well_formed := (UFun.well_formed QUANTITY UNIT_PRICE).

(** *** The evaluator is left as it was *)

Lemma call_body_frame (c : Contract) (l : UFun.Locals) (u : UFun.OneShotUFun) :
  (call_body c l u).2 = u.
Proof.
  unfold UFun.call_body, St.bind, St.lift, St.get, St.ret.
  destruct (UFun.signed_at c <? 0); [reflexivity |].
  destruct (Py.getitem (UFun.annotation c) "product") as [e | p]; [reflexivity |].
  cbn. destruct (Awi.deref (Awi.awi (UFun.owner u))) as [e | a]; [reflexivity |].
  destruct (p =? Awi.my_output_product a);
    destruct (Py.getitem (UFun.agreement c) QUANTITY) as [e | q]; try reflexivity;
    destruct (Py.getitem (UFun.agreement c) UNIT_PRICE) as [e | v]; reflexivity.
Qed.

Lemma call_loop_frame (cs : list Contract) (l : UFun.Locals) (u : UFun.OneShotUFun) :
  (call_loop cs l u).2 = u.
Proof.
  revert l. induction cs as [| c cs IH]; intros l; [reflexivity |].
  cbn [UFun.call_loop]. unfold St.bind at 1.
  pose proof (call_body_frame c l u) as Hc.
  destruct (call_body c l u) as [[e | l'] u']; cbn in Hc; subst u'; [reflexivity |].
  apply IH.
Qed.

Lemma call_frame (cs : list Contract) (u : UFun.OneShotUFun) :
  (__call__ cs u).2 = u.
Proof.
  unfold UFun.__call__, St.bind at 1.
  pose proof (call_loop_frame cs
    {| UFun.l_qin := 0; UFun.l_qout := 0; UFun.l_pin := 0; UFun.l_pout := 0 |} u) as Hl.
  destruct (call_loop cs _ u) as [[e | l] u']; cbn in Hl; subst u'; reflexivity.
Qed.

(** C8: a call of [__call__] leaves every stored attribute of the
    evaluator unchanged, whether it returns or raises, and a second call
    on the same contracts gives the same result as the first. *)
Theorem call_pure (cs : list Contract) (u : UFun.OneShotUFun) :
  let u' := (__call__ cs u).2 in
  (UFun.owner u' = UFun.owner u
   /\ UFun.pin u' = UFun.pin u /\ UFun.qin u' = UFun.qin u
   /\ UFun.pout u' = UFun.pout u /\ UFun.qout u' = UFun.qout u
   /\ UFun.cost u' = UFun.cost u /\ UFun.storage_cost u' = UFun.storage_cost u
   /\ UFun.delivery_penalty u' = UFun.delivery_penalty u)
  /\ u' = u
  /\ (__call__ cs u').1 = (__call__ cs u).1.
Proof.
  intros u'. subst u'. rewrite call_frame. repeat split; reflexivity.
Qed.

(** *** The value returned *)

(** A void contract is skipped before any of its parts is read. *)
Lemma call_body_void (c : Contract) (l : UFun.Locals) (u : UFun.OneShotUFun) :
  UFun.signed_at c < 0 -> call_body c l u = (Py.ret l, u).
Proof.
  intros Hneg. unfold UFun.call_body.
  destruct (Z.ltb_spec (UFun.signed_at c) 0); [reflexivity | lia].
Qed.

Lemma call_skips_void (c : Contract) (cs : list Contract) (u : UFun.OneShotUFun) :
  UFun.signed_at c < 0 -> __call__ (c :: cs) u = __call__ cs u.
Proof.
  intros Hneg. unfold UFun.__call__. cbn [UFun.call_loop].
  unfold St.bind at 1 2 4. now rewrite call_body_void.
Qed.

Lemma call_body_signed (c : Contract) (l : UFun.Locals) (u : UFun.OneShotUFun)
    (a : Awi.AWI) :
  Awi.awi (UFun.owner u) = Some a ->
  0 <= UFun.signed_at c ->
  well_formed c ->
  call_body c l u =
    (Py.ret
       (if UFun.is_about (Awi.my_output_product a) c
        then {| UFun.l_qin := UFun.l_qin l;
                UFun.l_qout := UFun.l_qout l + quantity_of c;
                UFun.l_pin := UFun.l_pin l;
                UFun.l_pout := UFun.l_pout l + value_of c |}
        else {| UFun.l_qin := UFun.l_qin l + quantity_of c;
                UFun.l_qout := UFun.l_qout l;
                UFun.l_pin := UFun.l_pin l + value_of c;
                UFun.l_pout := UFun.l_pout l |}), u).
Proof.
  intros Hawi Hpos Hwf. destruct (Hwf Hpos) as ([p Hp] & [q Hq] & [v Hv]).
  unfold UFun.call_body, UFun.is_about, UFun.value_of, UFun.price_of, UFun.quantity_of.
  destruct (Z.ltb_spec (UFun.signed_at c) 0); [lia |].
  unfold St.bind, St.lift, St.get, St.ret, Py.getitem, Py.ret.
  rewrite Hp. cbn. rewrite Hawi. cbn. rewrite Hq, Hv. cbn.
  now destruct (p =? Awi.my_output_product a).
Qed.

Lemma total_cons (sel : Contract -> bool) (f : Contract -> Z)
    (c : Contract) (cs : list Contract) :
  UFun.total sel f (c :: cs)
  = if sel c then f c + UFun.total sel f cs else UFun.total sel f cs.
Proof. reflexivity. Qed.

Lemma sold_void (out : Z) (c : Contract) :
  UFun.signed_at c < 0 -> UFun.sold out c = false.
Proof.
  intros Hneg. unfold UFun.sold, UFun.is_signed.
  destruct (Z.ltb_spec (UFun.signed_at c) 0); [reflexivity | lia].
Qed.

Lemma bought_void (out : Z) (c : Contract) :
  UFun.signed_at c < 0 -> UFun.bought out c = false.
Proof.
  intros Hneg. unfold UFun.bought, UFun.is_signed.
  destruct (Z.ltb_spec (UFun.signed_at c) 0); [reflexivity | lia].
Qed.

Lemma sold_signed (out : Z) (c : Contract) :
  0 <= UFun.signed_at c -> UFun.sold out c = UFun.is_about out c.
Proof.
  intros Hpos. unfold UFun.sold, UFun.is_signed.
  destruct (Z.ltb_spec (UFun.signed_at c) 0); [lia | reflexivity].
Qed.

Lemma bought_signed (out : Z) (c : Contract) :
  0 <= UFun.signed_at c -> UFun.bought out c = negb (UFun.is_about out c).
Proof.
  intros Hpos. unfold UFun.bought, UFun.is_signed.
  destruct (Z.ltb_spec (UFun.signed_at c) 0); [lia | reflexivity].
Qed.

Lemma call_loop_value (cs : list Contract) (l : UFun.Locals) (u : UFun.OneShotUFun)
    (a : Awi.AWI) :
  Awi.awi (UFun.owner u) = Some a ->
  Forall well_formed cs ->
  let out := Awi.my_output_product a in
  call_loop cs l u =
    (Py.ret {| UFun.l_qin := UFun.l_qin l + UFun.total (UFun.bought out) quantity_of cs;
               UFun.l_qout := UFun.l_qout l + UFun.total (UFun.sold out) quantity_of cs;
               UFun.l_pin := UFun.l_pin l + UFun.total (UFun.bought out) value_of cs;
               UFun.l_pout := UFun.l_pout l + UFun.total (UFun.sold out) value_of cs |}, u).
Proof.
  intros Hawi Hall out. revert l.
  induction Hall as [| c cs Hc _ IH]; intros l.
  - cbn. unfold St.ret. destruct l; cbn. now rewrite !Z.add_0_r.
  - cbn [UFun.call_loop]. unfold St.bind at 1. rewrite !total_cons.
    destruct (Z.lt_ge_cases (UFun.signed_at c) 0) as [Hneg | Hpos].
    + rewrite call_body_void by exact Hneg.
      rewrite (sold_void out c Hneg), (bought_void out c Hneg). apply IH.
    + rewrite (call_body_signed c l u a Hawi Hpos Hc). cbn [Py.ret].
      rewrite IH. fold out.
      rewrite (sold_signed out c Hpos), (bought_signed out c Hpos).
      destruct (UFun.is_about out c); cbn [negb UFun.l_qin UFun.l_qout UFun.l_pin UFun.l_pout];
        do 2 f_equal; f_equal; lia.
Qed.

(** Dropping the void contracts from the list changes nothing, whatever
    the contracts hold and whether the call returns or raises. *)
Lemma call_loop_ignores_void (cs : list Contract) (l : UFun.Locals) (u : UFun.OneShotUFun) :
  call_loop (filter (fun c => 0 <= UFun.signed_at c) cs) l u = call_loop cs l u.
Proof.
  revert l u. induction cs as [| c cs IH]; intros l u; [reflexivity |].
  destruct (Z.lt_ge_cases (UFun.signed_at c) 0) as [Hneg | Hpos].
  - rewrite filter_cons_False by lia. cbn [UFun.call_loop]. unfold St.bind at 1.
    rewrite call_body_void by exact Hneg. apply IH.
  - rewrite filter_cons_True by exact Hpos. cbn [UFun.call_loop]. unfold St.bind.
    destruct (call_body c l u) as [[e | l'] u']; [reflexivity | apply IH].
Qed.

Lemma call_ignores_void (cs : list Contract) (u : UFun.OneShotUFun) :
  __call__ (filter (fun c => 0 <= UFun.signed_at c) cs) u = __call__ cs u.
Proof. unfold UFun.__call__, St.bind. now rewrite call_loop_ignores_void. Qed.

(** C2, amended: [__call__] counts only the contracts with a
    non-negative signing step: the void ones can be dropped from the
    list without changing the outcome.  On contracts whose signed
    members carry a product, a quantity and a unit price, and for an
    owner that has joined a world, each signed contract about the
    owner's output product adds its quantity to [qout] and its quantity
    times its unit price to [pout], and each other signed contract,
    whatever its product, adds them to [qin] and [pin]; the result is
    [eval] on these sums added to the stored exogenous amounts, with the
    stored cost rates. *)
Theorem call_aggregates (cs : list Contract) (u : UFun.OneShotUFun) (a : Awi.AWI) :
  __call__ (filter (fun c => 0 <= UFun.signed_at c) cs) u = __call__ cs u
  /\ (Awi.awi (UFun.owner u) = Some a ->
      Forall well_formed cs ->
      let out := Awi.my_output_product a in
      (__call__ cs u).1 =
        Py.ret (UFun.eval
                  (UFun.qin u + UFun.total (UFun.bought out) quantity_of cs)
                  (UFun.qout u + UFun.total (UFun.sold out) quantity_of cs)
                  (UFun.pin u + UFun.total (UFun.bought out) value_of cs)
                  (UFun.pout u + UFun.total (UFun.sold out) value_of cs)
                  (UFun.cost u) (UFun.storage_cost u) (UFun.delivery_penalty u))).
Proof.
  split; [apply call_ignores_void |].
  intros Hawi Hall out. unfold UFun.__call__, St.bind at 1.
  rewrite (call_loop_value cs _ u a Hawi Hall). reflexivity.
Qed.

(** When every signed contract is about the owner's input or output
    product and the two differ, the aggregation is the one the
    specification words. *)
Lemma total_ext (sel sel' : Contract -> bool) (f : Contract -> Z)
    (cs : list Contract) :
  Forall (fun c => sel c = sel' c) cs -> UFun.total sel f cs = UFun.total sel' f cs.
Proof.
  induction 1 as [| c cs Hc _ IH]; [reflexivity |].
  rewrite !total_cons. now rewrite Hc, IH.
Qed.

Lemma call_meets_spec (cs : list Contract) (u : UFun.OneShotUFun) (a : Awi.AWI) :
  Awi.awi (UFun.owner u) = Some a ->
  Forall well_formed cs ->
  Awi.my_input_product a <> Awi.my_output_product a ->
  Forall (fun c => 0 <= UFun.signed_at c ->
                   UFun.is_about (Awi.my_input_product a) c
                   || UFun.is_about (Awi.my_output_product a) c = true) cs ->
  (__call__ cs u).1 = Py.ret (UFun.evaluate_spec QUANTITY UNIT_PRICE u a cs).
Proof.
  intros Hawi Hall Hne Hio. unfold UFun.__call__, St.bind at 1.
  rewrite (call_loop_value cs _ u a Hawi Hall). cbn -[UFun.eval UFun.total].
  unfold UFun.evaluate_spec.
  assert (Hsel : Forall (fun c => UFun.bought (Awi.my_output_product a) c
                   = UFun.is_signed c && UFun.is_about (Awi.my_input_product a) c) cs).
  { eapply Forall_impl; [exact Hio |]. intros c Hc. cbn beta in Hc.
    unfold UFun.bought, UFun.is_signed.
    destruct (Z.ltb_spec (UFun.signed_at c) 0) as [Hneg | Hpos]; [reflexivity |].
    specialize (Hc Hpos). cbn [negb andb]. revert Hc. unfold UFun.is_about.
    destruct (UFun.annotation c !! "product") as [p |]; [| discriminate].
    destruct (Z.eqb_spec p (Awi.my_input_product a)),
             (Z.eqb_spec p (Awi.my_output_product a)); cbn; congruence. }
  rewrite !(total_ext _ _ _ _ Hsel). reflexivity.
Qed.

End CallProperties.

(** C2, as stated, fails: a signed contract about a product that is
    neither the owner's input nor its output is counted as a purchase. *)
Lemma call_counts_other_products :
  ~ (forall (cs : list UFun.Contract) (u : UFun.OneShotUFun) (a : Awi.AWI),
       Awi.awi (UFun.owner u) = Some a ->
       Forall (UFun.well_formed "quantity" "unit_price") cs ->
       (UFun.__call__ "quantity" "unit_price" cs u).1
       = Py.ret (UFun.evaluate_spec "quantity" "unit_price" u a cs)).
Proof.
  intros Hall.
  specialize (Hall [Examples.contract 0 3 4 10] Examples.ufun12 Examples.awi12 eq_refl).
  assert (Hwf : Forall (UFun.well_formed "quantity" "unit_price")
                       [Examples.contract 0 3 4 10]).
  { repeat constructor; vm_compute; eauto. }
  specialize (Hall Hwf). vm_compute in Hall. discriminate.
Qed.

Example call_other_product_value :
  (UFun.__call__ "quantity" "unit_price" [Examples.contract 0 3 4 10] Examples.ufun12).1
  = Py.ret 20
  /\ UFun.evaluate_spec "quantity" "unit_price" Examples.ufun12 Examples.awi12
       [Examples.contract 0 3 4 10] = 0.
Proof. split; vm_compute; reflexivity. Qed.

Lemma call_aggregates_witness :
  (UFun.__call__ "quantity" "unit_price"
     [Examples.contract 0 2 10 30; Examples.contract (-1) 2 7 30; Examples.contract 0 1 10 10]
     Examples.ufun12).1
  = Py.ret (UFun.eval (0 + 10) (0 + 10) (0 + 100) (0 + 300) 2 5 5).
Proof.
  apply (proj2 (call_aggregates "quantity" "unit_price"
           [Examples.contract 0 2 10 30; Examples.contract (-1) 2 7 30;
            Examples.contract 0 1 10 10]
           Examples.ufun12 Examples.awi12)).
  - reflexivity.
  - repeat constructor; vm_compute; eauto.
Defined.

(** ** [OneShotUFun.__init__] and [DefaultOneShotAdapter.make_ufun] *)

(** The constructor accepts the keywords of its own signature: the
    owner alone, with every default, or with the cost rate under its
    name [cost]. *)
Example init_accepts_cost :
  match UFun.__init__ [ ("owner", UFun.VObj {| Awi.awi := Some Examples.awi12 |});
                        ("cost", UFun.VNum 2);
                        ("storage_cost", UFun.VNum 5);
                        ("delivery_penalty", UFun.VNum 5) ] with
  | inr d => UFun.of_attrs d
  | inl _ => None
  end = Some Examples.ufun12.
Proof. vm_compute. reflexivity. Qed.

Example init_requires_owner : UFun.__init__ [ ("cost", UFun.VNum 2) ] = Py.raise Py.TypeError.
Proof. vm_compute. reflexivity. Qed.

(** A keyword that names no parameter makes the binding fail, wherever
    it stands among the keywords. *)
Lemma bind_keywords_unexpected (sig : list (string * option UFun.value))
    (kwargs : list (string * UFun.value)) (bound : gmap string UFun.value) (k : string) :
  k ∈ kwargs.*1 -> k ∉ sig.*1 ->
  UFun.bind_keywords sig kwargs bound = Py.raise Py.TypeError.
Proof.
  intros Hin Hout. revert bound.
  induction kwargs as [| [k' v] kwargs IH]; intros bound.
  - cbn in Hin. now apply elem_of_nil in Hin.
  - cbn [UFun.bind_keywords]. case_bool_decide as Hk'; [| reflexivity].
    destruct (bound !! k'); [reflexivity |].
    apply IH. cbn in Hin. apply elem_of_cons in Hin as [-> | Hin]; [contradiction | exact Hin].
Qed.

Lemma init_unexpected_keyword (kwargs : list (string * UFun.value)) (k : string) :
  k ∈ kwargs.*1 -> k ∉ UFun.init_signature.*1 ->
  UFun.__init__ kwargs = Py.raise Py.TypeError.
Proof.
  intros Hin Hout. unfold UFun.__init__.
  now rewrite (bind_keywords_unexpected _ _ _ k Hin Hout).
Qed.

Lemma production_cost_not_a_parameter : "production_cost" ∉ UFun.init_signature.*1.
Proof. apply (bool_decide_unpack _). vm_compute. exact I. Qed.

Lemma make_ufun_attached (add_exogenous : bool) (self : SysAgents.DefaultOneShotAdapter)
    (a : Awi.AWI) :
  SysAgents.awi self = Some a ->
  SysAgents.make_ufun add_exogenous self = (Py.raise Py.TypeError, self).
Proof.
  intros Hawi. unfold SysAgents.make_ufun, SysAgents.exogenous.
  unfold St.bind at 1. cbn [St.get Py.ret]. rewrite Hawi. cbn [Awi.deref Py.bind Py.ret].
  destruct add_exogenous; cbn [St.bind St.lift Py.ret];
    (erewrite init_unexpected_keyword;
     [reflexivity | | exact production_cost_not_a_parameter]);
    cbn [fmap list_fmap fst]; apply (bool_decide_unpack _); vm_compute; exact I.
Qed.

Lemma make_ufun_detached (add_exogenous : bool) (self : SysAgents.DefaultOneShotAdapter) :
  SysAgents.awi self = None ->
  SysAgents.make_ufun add_exogenous self = (Py.raise Py.AttributeError, self).
Proof.
  intros Hawi. unfold SysAgents.make_ufun, SysAgents.exogenous.
  unfold St.bind at 1. cbn [St.get Py.ret]. rewrite Hawi.
  destruct add_exogenous; reflexivity.
Qed.

(** C9, as stated, fails: on an adapter that has not joined a world the
    arguments cannot be evaluated, and the call raises [AttributeError]
    before the constructor is reached. *)
Lemma make_ufun_detached_attribute_error :
  ~ (forall (add_exogenous : bool) (self : SysAgents.DefaultOneShotAdapter),
       (SysAgents.make_ufun add_exogenous self).1 = Py.raise Py.TypeError).
Proof.
  intros Hall. specialize (Hall false Examples.detached).
  vm_compute in Hall. discriminate.
Qed.

(** C9, amended: on an adapter that has joined a world every call of
    [make_ufun] raises [TypeError], because the constructor is given
    the keywords [production_cost], [input_agent] and [output_agent],
    none of which is a parameter of [__init__] (the cost rate is named
    [cost]); no call of [make_ufun] returns, and none stores a utility
    function in the adapter. *)
Theorem make_ufun_raises (add_exogenous : bool) (self : SysAgents.DefaultOneShotAdapter) :
  (is_Some (SysAgents.awi self) ->
   (SysAgents.make_ufun add_exogenous self).1 = Py.raise Py.TypeError)
  /\ (exists e : Py.exn, (SysAgents.make_ufun add_exogenous self).1 = Py.raise e)
  /\ (SysAgents.make_ufun add_exogenous self).2 = self
  /\ ("production_cost" ∉ UFun.init_signature.*1)
  /\ ("input_agent" ∉ UFun.init_signature.*1)
  /\ ("output_agent" ∉ UFun.init_signature.*1)
  /\ ("cost" ∈ UFun.init_signature.*1).
Proof.
  split; [| split; [| split]].
  - intros [a Ha]. now rewrite (make_ufun_attached _ _ a Ha).
  - destruct (SysAgents.awi self) as [a |] eqn:Ha.
    + exists Py.TypeError. now rewrite (make_ufun_attached _ _ a Ha).
    + exists Py.AttributeError. now rewrite (make_ufun_detached _ _ Ha).
  - destruct (SysAgents.awi self) as [a |] eqn:Ha.
    + now rewrite (make_ufun_attached _ _ a Ha).
    + now rewrite (make_ufun_detached _ _ Ha).
  - repeat split; apply (bool_decide_unpack _); vm_compute; exact I.
Qed.

Lemma make_ufun_raises_witness :
  (SysAgents.make_ufun true Examples.attached).1 = Py.raise Py.TypeError.
Proof.
  apply (proj1 (make_ufun_raises true Examples.attached)).
  exists Examples.awi12. reflexivity.
Defined.

(** ** The contract executor: conservation of goods *)

Lemma total_inventory_empty (p : Z) : Executor.total_inventory ∅ p = 0.
Proof. unfold Executor.total_inventory. apply map_fold_empty. Qed.

Lemma total_inventory_insert (ls : gmap string Executor.FactoryLedger) (a : string)
    (l : Executor.FactoryLedger) (p : Z) :
  ls !! a = None ->
  Executor.total_inventory (<[a := l]> ls) p
  = Executor.stock l p + Executor.total_inventory ls p.
Proof.
  intros Hfresh. unfold Executor.total_inventory.
  rewrite map_fold_insert_L; [reflexivity | | exact Hfresh].
  intros; lia.
Qed.

(** Updating the ledger of one agent changes the total by the change of
    that agent's stock. *)
Lemma total_inventory_alter (ls : gmap string Executor.FactoryLedger) (a : string)
    (f : Executor.FactoryLedger -> Executor.FactoryLedger) (l : Executor.FactoryLedger)
    (p : Z) :
  ls !! a = Some l ->
  Executor.total_inventory (alter f a ls) p
  = Executor.total_inventory ls p + (Executor.stock (f l) p - Executor.stock l p).
Proof.
  intros Hl. rewrite <- (insert_delete_id ls a l Hl) at 1 2.
  rewrite alter_insert_eq.
  rewrite !total_inventory_insert by apply lookup_delete_eq. lia.
Qed.

Lemma stock_move (p d m : Z) (l : Executor.FactoryLedger) (p' : Z) :
  Executor.stock (Executor.move p d m l) p'
  = if decide (p = p') then Executor.stock l p + d else Executor.stock l p'.
Proof.
  unfold Executor.stock at 1. cbn [Executor.move Executor.inventory].
  rewrite lookup_insert. case_decide; [| reflexivity]. reflexivity.
Qed.

(** Settling one side of a contract: a ledger of the world gains [d]
    units of the product, the outside changes no ledger. *)
Lemma total_inventory_settle_agent (ls : gmap string Executor.FactoryLedger) (a : string)
    (p d m p' : Z) :
  is_Some (ls !! a) ->
  Executor.total_inventory (Executor.settle (Executor.Agent a) p d m ls) p'
  = Executor.total_inventory ls p' + (if decide (p = p') then d else 0).
Proof.
  intros [l Hl]. cbn [Executor.settle].
  rewrite (total_inventory_alter ls a _ l p' Hl), stock_move.
  case_decide; [subst p' |]; lia.
Qed.

Lemma settle_outside (ls : gmap string Executor.FactoryLedger) (p d m : Z) :
  Executor.settle Executor.External p d m ls = ls.
Proof. reflexivity. Qed.

Lemma settle_keeps_agents (ls : gmap string Executor.FactoryLedger) (who : Executor.Party)
    (p d m : Z) (a : string) :
  is_Some (ls !! a) -> is_Some (Executor.settle who p d m ls !! a).
Proof.
  intros Ha. destruct who as [b |]; cbn [Executor.settle]; [| exact Ha].
  now apply lookup_alter_is_Some.
Qed.

(** A contract is executed only between parties that are resolved. *)
Lemma delivered_seller (ls : gmap string Executor.FactoryLedger) (c : Executor.Contract)
    (d : Z) (s : string) :
  Executor.delivered ls c = Some d -> Executor.seller c = Executor.Agent s ->
  is_Some (ls !! s).
Proof.
  unfold Executor.delivered, Executor.can_deliver. intros Hd Hs. rewrite Hs in Hd.
  destruct (Executor.signed_at c <? 0); [discriminate |].
  destruct (ls !! s) as [l |]; [eauto |].
  cbn in Hd. destruct (Executor.buyer c); discriminate.
Qed.

Lemma delivered_buyer (ls : gmap string Executor.FactoryLedger) (c : Executor.Contract)
    (d : Z) (b : string) :
  Executor.delivered ls c = Some d -> Executor.buyer c = Executor.Agent b ->
  is_Some (ls !! b).
Proof.
  unfold Executor.delivered, Executor.can_pay. intros Hd Hb. rewrite Hb in Hd.
  destruct (Executor.signed_at c <? 0); [discriminate |].
  destruct (ls !! b) as [l |]; [eauto |].
  destruct (Executor.seller c); destruct (Executor.can_deliver ls c); discriminate.
Qed.

Lemma delivered_not_outside (ls : gmap string Executor.FactoryLedger) (c : Executor.Contract)
    (d : Z) :
  Executor.delivered ls c = Some d ->
  Executor.seller c = Executor.External -> Executor.buyer c = Executor.External -> False.
Proof.
  unfold Executor.delivered. intros Hd Hs Hb. rewrite Hs, Hb in Hd.
  destruct (Executor.signed_at c <? 0); discriminate.
Qed.

(** The volumes are sums: a new item adds its share. *)
Lemma volume_snoc {A : Type} (about : A -> Z) (sel : A -> bool) (f : A -> Z) (p : Z)
    (l : list A) (x : A) :
  Executor.volume about sel f p (l ++ [x])
  = Executor.volume about sel f p l + (if (about x =? p) && sel x then f x else 0).
Proof.
  unfold Executor.volume. induction l as [| y l IH].
  - cbn. destruct ((about x =? p) && sel x); lia.
  - cbn [app foldr]. rewrite IH. destruct ((about y =? p) && sel y); lia.
Qed.

Lemma volume_nil {A : Type} (about : A -> Z) (sel : A -> bool) (f : A -> Z) (p : Z) :
  Executor.volume about sel f p [] = 0.
Proof. reflexivity. Qed.

Lemma volume_cons {A : Type} (about : A -> Z) (sel : A -> bool) (f : A -> Z) (p : Z)
    (l : list A) (x : A) :
  Executor.volume about sel f p (x :: l)
  = (if (about x =? p) && sel x then f x else 0) + Executor.volume about sel f p l.
Proof. unfold Executor.volume. cbn [foldr]. destruct ((about x =? p) && sel x); lia. Qed.

Lemma volume_app {A : Type} (about : A -> Z) (sel : A -> bool) (f : A -> Z) (p : Z)
    (l l' : list A) :
  Executor.volume about sel f p (l ++ l')
  = Executor.volume about sel f p l + Executor.volume about sel f p l'.
Proof.
  induction l as [| x l IH]; [reflexivity |].
  cbn [app]. rewrite !volume_cons, IH. lia.
Qed.

Lemma volume_none {A : Type} (about : A -> Z) (sel : A -> bool) (f : A -> Z) (p : Z)
    (l : list A) :
  Forall (fun x => sel x = false) l -> Executor.volume about sel f p l = 0.
Proof.
  induction 1 as [| x l Hx _ IH]; [reflexivity |].
  rewrite volume_cons, IH, Hx. now rewrite andb_false_r.
Qed.

Section Conservation.

Variable costs : gmap string Executor.CostModel.
Variable bankruptcy_limit : Z.
Variable buy_missing_products : bool.
Variable catalog_prices : gmap Z Z.

Local Abbreviation execute := (Executor.execute buy_missing_products catalog_prices).
Local Abbreviation fill := (Executor.fill buy_missing_products).

Lemma fill_outside (c : Executor.Contract) (d : Z) :
  Executor.buyer c = Executor.External -> fill c d = 0.
Proof. intros Hb. unfold Executor.fill. now rewrite Hb. Qed.

Lemma fill_range (c : Executor.Contract) (d : Z) :
  d <= Executor.quantity c -> 0 <= fill c d /\ d + fill c d <= Executor.quantity c.
Proof.
  intros Hd. unfold Executor.fill.
  destruct (Executor.buyer c); [destruct buy_missing_products |]; lia.
Qed.

Lemma fill_off (c : Executor.Contract) (d : Z) :
  buy_missing_products = false -> fill c d = 0.
Proof. intros Hoff. unfold Executor.fill. rewrite Hoff. now destruct (Executor.buyer c). Qed.

(** Executing one contract keeps the balance of goods: what the ledgers
    hold, less what entered the world and plus what left it, is the
    same before and after. *)
Lemma execute_conserves (c : Executor.Contract) (r : Executor.ExecutionReport) (p : Z) :
  let r' := execute c r in
  Executor.total_inventory (Executor.ledgers r') p
  - (Executor.entered (Executor.deliveries r') p
     - Executor.departed (Executor.deliveries r') p)
  = Executor.total_inventory (Executor.ledgers r) p
    - (Executor.entered (Executor.deliveries r) p
       - Executor.departed (Executor.deliveries r) p).
Proof.
  cbn zeta. unfold Executor.execute.
  destruct (Executor.delivered (Executor.ledgers r) c) as [d |] eqn:Hd; [| reflexivity].
  cbn [Executor.ledgers Executor.deliveries].
  unfold Executor.entered, Executor.departed. rewrite !volume_snoc.
  cbn [Executor.executed Executor.handed_over Executor.bought_missing].
  rewrite andb_true_r.
  pose proof (fun s => delivered_seller _ _ _ s Hd) as Hs.
  pose proof (fun b => delivered_buyer _ _ _ b Hd) as Hb.
  pose proof (delivered_not_outside _ _ _ Hd) as Hout.
  pose proof (fill_outside c d) as Hfill.
  destruct (Executor.seller c) as [s |], (Executor.buyer c) as [b |];
    cbn [Executor.outside andb].
  - rewrite !total_inventory_settle_agent
      by (repeat apply settle_keeps_agents; first [apply (Hb b eq_refl) | apply (Hs s eq_refl)]).
    rewrite !andb_false_r.
    case_decide as Hp; destruct (Z.eqb_spec (Executor.product c) p); lia.
  - rewrite !settle_outside.
    rewrite total_inventory_settle_agent by apply (Hs s eq_refl).
    rewrite (Hfill eq_refl), !andb_false_r, andb_true_r.
    case_decide as Hp; destruct (Z.eqb_spec (Executor.product c) p); lia.
  - rewrite (settle_outside (Executor.ledgers r)).
    rewrite !total_inventory_settle_agent
      by (repeat apply settle_keeps_agents; apply (Hb b eq_refl)).
    rewrite !andb_false_r, andb_true_r.
    case_decide as Hp; destruct (Z.eqb_spec (Executor.product c) p); lia.
  - exfalso. now apply Hout.
Qed.

Lemma execute_all_conserves (cs : list Executor.Contract) (r : Executor.ExecutionReport)
    (p : Z) :
  let r' := foldl (fun r c => execute c r) r cs in
  Executor.total_inventory (Executor.ledgers r') p
  - (Executor.entered (Executor.deliveries r') p
     - Executor.departed (Executor.deliveries r') p)
  = Executor.total_inventory (Executor.ledgers r) p
    - (Executor.entered (Executor.deliveries r) p
       - Executor.departed (Executor.deliveries r) p).
Proof.
  cbn zeta. revert r. induction cs as [| c cs IH]; intros r; [reflexivity |].
  cbn [foldl]. rewrite IH. apply execute_conserves.
Qed.

(** The end-of-step pass touches balances and flags only. *)
Lemma total_inventory_imap (g : string -> Executor.FactoryLedger -> Executor.FactoryLedger)
    (ls : gmap string Executor.FactoryLedger) (p : Z) :
  (forall a l, Executor.stock (g a l) p = Executor.stock l p) ->
  Executor.total_inventory (map_imap (fun a l => Some (g a l)) ls) p
  = Executor.total_inventory ls p.
Proof.
  intros Hg. induction ls as [| a l ls Hfresh IH] using map_ind.
  - now rewrite map_imap_empty.
  - rewrite (map_imap_insert_Some _ a l ls (g a l) eq_refl).
    rewrite !total_inventory_insert; [now rewrite IH, Hg | exact Hfresh |].
    rewrite map_lookup_imap, Hfresh. reflexivity.
Qed.

Lemma stock_charge (bs : list Executor.Breach) (a : string) (l : Executor.FactoryLedger)
    (p : Z) :
  Executor.stock (Executor.charge costs bs a l) p = Executor.stock l p.
Proof. unfold Executor.charge. now destruct (costs !! a). Qed.

Lemma stock_check_bankruptcy (l : Executor.FactoryLedger) (p : Z) :
  Executor.stock (Executor.check_bankruptcy bankruptcy_limit l) p = Executor.stock l p.
Proof. reflexivity. Qed.

(** *** The scheduled exogenous volumes *)

(** An agent that trades keeps trading while the contracts of the step
    are executed: its ledger stays and bankruptcy is declared only at
    the end of the step. *)
Lemma trading_settle (ls : gmap string Executor.FactoryLedger) (who who' : Executor.Party)
    (p d m : Z) :
  Executor.trading ls who -> Executor.trading (Executor.settle who' p d m ls) who.
Proof.
  destruct who as [a |]; [| contradiction]. intros (l & Hl & Hb).
  destruct who' as [b |]; cbn [Executor.settle]; [| now exists l].
  destruct (decide (b = a)) as [-> | Hne].
  - exists (Executor.move p d m l). split; [| exact Hb].
    now rewrite lookup_alter_eq, Hl.
  - exists l. split; [| exact Hb]. now rewrite lookup_alter_ne.
Qed.

Lemma trading_execute (c : Executor.Contract) (r : Executor.ExecutionReport)
    (who : Executor.Party) :
  Executor.trading (Executor.ledgers r) who ->
  Executor.trading (Executor.ledgers (execute c r)) who.
Proof.
  intros Hwho. unfold Executor.execute.
  destruct (Executor.delivered (Executor.ledgers r) c); [| exact Hwho].
  cbn [Executor.ledgers]. now repeat apply trading_settle.
Qed.

Lemma exogenous_for_execute (c c' : Executor.Contract) (r : Executor.ExecutionReport) :
  Executor.exogenous_for (Executor.ledgers r) c' ->
  Executor.exogenous_for (Executor.ledgers (execute c r)) c'.
Proof.
  intros (Hs & Hq & [[Hout Ht] | [Hout Ht]]); split; [exact Hs | | exact Hs |];
    (split; [exact Hq |]); [left | right]; (split; [exact Hout |]);
    now apply trading_execute.
Qed.

(** An exogenous contract of the step is executed, for a quantity
    between nothing and the scheduled one. *)
Lemma delivered_exogenous (ls : gmap string Executor.FactoryLedger) (c : Executor.Contract) :
  Executor.exogenous_for ls c ->
  exists d, Executor.delivered ls c = Some d /\ 0 <= d <= Executor.quantity c.
Proof.
  intros (Hs & Hq & Hc). unfold Executor.delivered.
  destruct (Z.ltb_spec (Executor.signed_at c) 0); [lia |].
  unfold Executor.can_deliver, Executor.can_pay.
  destruct Hc as [[Hout Ht] | [Hout Ht]].
  - destruct (Executor.seller c) as [s |]; [discriminate |].
    destruct (Executor.buyer c) as [b |]; [| contradiction].
    destruct Ht as (l & Hl & Hbk). rewrite Hl. cbn. rewrite Hbk. cbn.
    destruct (Executor.unit_price c <=? 0); eexists; (split; [reflexivity | lia]).
  - destruct (Executor.buyer c) as [b |]; [discriminate |].
    destruct (Executor.seller c) as [s |]; [| contradiction].
    destruct Ht as (l & Hl & Hbk). rewrite Hl. cbn. rewrite Hbk. cbn.
    eexists. split; [reflexivity | lia].
Qed.

(** What the record of a step says of the exogenous supply and of the
    exogenous sale of product [p]: the volume that came from or went to
    the outside together with the volume left unmet. *)
Local Abbreviation supplied r p :=
  (Executor.entered (Executor.deliveries r) p
   - Executor.bought_among_agents (Executor.deliveries r) p
   + Executor.unmet_supply (Executor.breaches r) p).

Local Abbreviation sold r p :=
  (Executor.departed (Executor.deliveries r) p
   + Executor.unmet_sale (Executor.breaches r) p).

Lemma scheduled_among_agents (c : Executor.Contract) (p : Z) :
  Executor.among_agents c ->
  Executor.scheduled_supply [c] p = 0 /\ Executor.scheduled_sale [c] p = 0.
Proof.
  intros [Hs Hb]. unfold Executor.scheduled_supply, Executor.scheduled_sale.
  rewrite !volume_cons, !volume_nil, Hs, Hb, !andb_false_r. split; reflexivity.
Qed.

(** Each executed contract is accounted for: an exogenous one adds its
    scheduled quantity to what was supplied or sold and left unmet, a
    contract among agents adds nothing. *)
Lemma execute_accounts (c : Executor.Contract) (r : Executor.ExecutionReport) (p : Z) :
  Executor.among_agents c \/ Executor.exogenous_for (Executor.ledgers r) c ->
  supplied (execute c r) p = supplied r p + Executor.scheduled_supply [c] p
  /\ sold (execute c r) p = sold r p + Executor.scheduled_sale [c] p.
Proof.
  intros Hc. unfold Executor.execute.
  destruct (Executor.delivered (Executor.ledgers r) c) as [d |] eqn:Hd.
  2:{ destruct Hc as [Hc | Hc].
      - destruct (scheduled_among_agents c p Hc) as [-> ->]. lia.
      - destruct (delivered_exogenous _ _ Hc) as (d & Hd' & _). congruence. }
  cbn [Executor.deliveries Executor.breaches].
  unfold Executor.entered, Executor.departed, Executor.bought_among_agents,
    Executor.unmet_supply, Executor.unmet_sale,
    Executor.scheduled_supply, Executor.scheduled_sale.
  rewrite !volume_snoc, !volume_cons.
  cbn [Executor.executed Executor.handed_over Executor.bought_missing].
  assert (Hbreach : forall sel : Executor.Breach -> bool,
    Executor.volume (fun b => Executor.product (Executor.breached b)) sel Executor.deficit p
      (if d + fill c d <? Executor.quantity c
       then Executor.breaches r
            ++ [ {| Executor.breached := c;
                    Executor.deficit := Executor.quantity c - d - fill c d;
                    Executor.responsible := Executor.at_fault (Executor.ledgers r) c |} ]
       else Executor.breaches r)
    = Executor.volume (fun b => Executor.product (Executor.breached b)) sel Executor.deficit p
        (Executor.breaches r)
      + (if (Executor.product c =? p)
            && sel {| Executor.breached := c;
                      Executor.deficit := Executor.quantity c - d - fill c d;
                      Executor.responsible := Executor.at_fault (Executor.ledgers r) c |}
         then Z.max 0 (Executor.quantity c - d - fill c d) else 0)).
  { intros sel. destruct (Z.ltb_spec (d + fill c d) (Executor.quantity c)) as [Hlt | Hge].
    - rewrite volume_snoc. cbn [Executor.breached Executor.deficit].
      destruct (_ && _); lia.
    - destruct (_ && _); lia. }
  rewrite !Hbreach. cbn [Executor.breached]. clear Hbreach.
  rewrite andb_true_r, !volume_nil.
  destruct Hc as [[Hs Hb] | Hc].
  - rewrite Hs, Hb. cbn [negb]. rewrite !andb_false_r, andb_true_r.
    destruct (Executor.product c =? p); lia.
  - destruct (delivered_exogenous _ _ Hc) as (d' & Hd' & Hrange).
    assert (d' = d) as -> by congruence.
    destruct (fill_range c d ltac:(lia)) as [Hf0 Hf1].
    pose proof (fill_outside c d) as Hfill.
    destruct Hc as (_ & _ & [[Hout Ht] | [Hout Ht]]).
    + destruct (Executor.seller c) as [s |]; [discriminate |].
      destruct (Executor.buyer c) as [b |]; [| contradiction].
      cbn [Executor.outside negb]. rewrite !andb_false_r, !andb_true_r.
      destruct (Executor.product c =? p); lia.
    + destruct (Executor.buyer c) as [b |]; [discriminate |].
      destruct (Executor.seller c) as [s |]; [| contradiction].
      cbn [Executor.outside negb]. rewrite (Hfill eq_refl) in *.
      rewrite !andb_false_r, !andb_true_r.
      destruct (Executor.product c =? p); lia.
Qed.

Lemma execute_all_accounts (cs : list Executor.Contract) (r : Executor.ExecutionReport)
    (p : Z) :
  Forall (fun c => Executor.among_agents c
                   \/ Executor.exogenous_for (Executor.ledgers r) c) cs ->
  let r' := foldl (fun r c => execute c r) r cs in
  supplied r' p = supplied r p + Executor.scheduled_supply cs p
  /\ sold r' p = sold r p + Executor.scheduled_sale cs p.
Proof.
  cbn zeta. revert r. induction cs as [| c cs IH]; intros r Hall.
  - cbn [foldl]. unfold Executor.scheduled_supply, Executor.scheduled_sale.
    rewrite !volume_nil. lia.
  - apply Forall_cons in Hall as [Hc Hall]. cbn [foldl].
    destruct (execute_accounts c r p Hc) as [Hsup Hsold].
    destruct (IH (execute c r)) as [Hsup' Hsold'].
    { eapply Forall_impl; [exact Hall |]. intros c' [Hc' | Hc']; [now left | right].
      now apply exogenous_for_execute. }
    unfold Executor.scheduled_supply, Executor.scheduled_sale in *.
    rewrite !(volume_cons _ _ _ p cs c).
    rewrite !volume_cons, !volume_nil in Hsup, Hsold. lia.
Qed.

(** Without [buy_missing_products] nothing is bought from the external
    source. *)
Lemma execute_all_buys_nothing (cs : list Executor.Contract) (r : Executor.ExecutionReport)
    (sel : Executor.Delivery -> bool) (p : Z) :
  buy_missing_products = false ->
  let r' := foldl (fun r c => execute c r) r cs in
  Executor.volume (fun x => Executor.product (Executor.executed x)) sel
    Executor.bought_missing p (Executor.deliveries r')
  = Executor.volume (fun x => Executor.product (Executor.executed x)) sel
      Executor.bought_missing p (Executor.deliveries r).
Proof.
  intros Hoff. cbn zeta. revert r. induction cs as [| c cs IH]; intros r; [reflexivity |].
  cbn [foldl]. rewrite IH. unfold Executor.execute.
  destruct (Executor.delivered (Executor.ledgers r) c) as [d |]; [| reflexivity].
  cbn [Executor.deliveries]. rewrite volume_snoc. cbn [Executor.bought_missing].
  rewrite (fill_off c d Hoff). destruct (_ && _); lia.
Qed.

(** Contracts among agents hand nothing over from or to the outside. *)
Lemma execute_all_among_agents (cs : list Executor.Contract) (r : Executor.ExecutionReport)
    (p : Z) :
  Forall Executor.among_agents cs ->
  let r' := foldl (fun r c => execute c r) r cs in
  Executor.volume (fun x => Executor.product (Executor.executed x))
    (fun x => Executor.outside (Executor.seller (Executor.executed x)))
    Executor.handed_over p (Executor.deliveries r')
  = Executor.volume (fun x => Executor.product (Executor.executed x))
      (fun x => Executor.outside (Executor.seller (Executor.executed x)))
      Executor.handed_over p (Executor.deliveries r)
  /\ Executor.departed (Executor.deliveries r') p = Executor.departed (Executor.deliveries r) p.
Proof.
  intros Hall. cbn zeta. revert r.
  induction Hall as [| c cs [Hs Hb] _ IH]; intros r; [split; reflexivity |].
  cbn [foldl]. destruct (IH (execute c r)) as [-> ->].
  unfold Executor.execute, Executor.departed.
  destruct (Executor.delivered (Executor.ledgers r) c) as [d |]; [| split; reflexivity].
  cbn [Executor.deliveries]. rewrite !volume_snoc. cbn [Executor.executed].
  rewrite Hs, Hb, !andb_false_r. split; lia.
Qed.

End Conservation.




(** The example world, once without and once with the buying of
    missing products: the sale of eight units finds five in stock; the
    three missing ones are a breach in the first case and are bought
    from the external source in the second; the supply from outside
    adds ten units of product 0 in both. *)
Example tick_example :
  let r := (Executor.tick Examples.costs01 0 false Examples.catalog01
              [Examples.supply0] [Examples.sale01] Examples.world01).2 in
  let r' := (Executor.tick Examples.costs01 0 true Examples.catalog01
               [Examples.supply0] [Examples.sale01] Examples.world01).2 in
  Executor.handed_over <$> Executor.deliveries r = [10; 5]
  /\ Executor.deficit <$> Executor.breaches r = [3]
  /\ Executor.total_inventory (Executor.ledgers r) 0 = 10
  /\ Executor.total_inventory (Executor.ledgers r) 1 = 5
  /\ Executor.balance <$> Executor.ledgers r !! "a0" = Some 114
  /\ Executor.balance <$> Executor.ledgers r !! "a1" = Some 45
  /\ Executor.bought_missing <$> Executor.deliveries r' = [0; 3]
  /\ Executor.breaches r' = []
  /\ Executor.total_inventory (Executor.ledgers r') 1 = 8
  /\ Executor.bought_among_agents (Executor.deliveries r') 1 = 3.
Proof. vm_compute. repeat split; reflexivity. Qed.

(** * Further properties of the modelled code *)

(** ** [OneShotUFun.eval] *)

(** X1: [eval] by cases: when no more is bought than sold no storage is
    paid and the penalty is paid on the missing units; when no more is
    sold than bought no penalty is paid and storage is paid on the
    units left over; production is paid on the smaller quantity. *)
Theorem eval_by_cases (qin qout pin pout production_cost storage_cost delivery_penalty : Z) :
  (qin <= qout ->
   UFun.eval qin qout pin pout production_cost storage_cost delivery_penalty
   = pin - pout - production_cost * qin - delivery_penalty * (qout - qin))
  /\ (qout <= qin ->
      UFun.eval qin qout pin pout production_cost storage_cost delivery_penalty
      = pin - pout - production_cost * qout - storage_cost * (qin - qout)).
Proof. split; [apply eval_shortfall | apply eval_surplus]. Qed.

Lemma eval_by_cases_witness :
  UFun.eval 4 10 100 300 2 5 7 = 100 - 300 - 2 * 4 - 7 * (10 - 4)
  /\ UFun.eval 10 4 100 300 2 5 7 = 100 - 300 - 2 * 4 - 5 * (10 - 4).
Proof.
  split.
  - apply (proj1 (eval_by_cases 4 10 100 300 2 5 7)). lia.
  - apply (proj2 (eval_by_cases 10 4 100 300 2 5 7)). lia.
Defined.

(** X2: exchanging the bought and the sold quantity has the effect of
    exchanging the storage cost and the delivery penalty. *)
Theorem eval_swap (qin qout pin pout production_cost storage_cost delivery_penalty : Z) :
  UFun.eval qin qout pin pout production_cost storage_cost delivery_penalty
  = UFun.eval qout qin pin pout production_cost delivery_penalty storage_cost.
Proof. rewrite !eval_min_max, (Z.min_comm qin qout). lia. Qed.



(** X4: on integer quantities, payments and cost rates [eval] is
    homogeneous: multiplying the quantities and the payments by a
    non-negative integer multiplies the result by it. *)
Theorem eval_scale (k qin qout pin pout production_cost storage_cost delivery_penalty : Z) :
  0 <= k ->
  UFun.eval (k * qin) (k * qout) (k * pin) (k * pout)
            production_cost storage_cost delivery_penalty
  = k * UFun.eval qin qout pin pout production_cost storage_cost delivery_penalty.
Proof.
  intros Hk. rewrite !eval_min_max.
  rewrite Z.mul_min_distr_nonneg_l by exact Hk.
  replace (k * qin - k * qout) with (k * (qin - qout)) by lia.
  replace (k * qout - k * qin) with (k * (qout - qin)) by lia.
  replace 0 with (k * 0) at 1 2 by lia.
  rewrite !Z.mul_max_distr_nonneg_l by exact Hk. lia.
Qed.

Lemma eval_scale_witness :
  UFun.eval (3 * 4) (3 * 10) (3 * 100) (3 * 300) 2 5 7 = 3 * UFun.eval 4 10 100 300 2 5 7.
Proof. apply (eval_scale 3 4 10 100 300 2 5 7). lia. Defined.

(** ** [OneShotUFun.breach_level] and [OneShotUFun.is_breach] *)

(** X5: [breach_level] does not depend on which of the two quantities
    is the bought one. *)
Theorem breach_level_sym (qin qout : Z) :
  UFun.breach_level qin qout = UFun.breach_level qout qin.
Proof.
  unfold UFun.breach_level. rewrite !py_max_spec, !py_abs_spec.
  rewrite (Z.max_comm qout qin).
  replace (Z.abs (qout - qin)) with (Z.abs (qin - qout)) by lia. reflexivity.
Qed.

(** X6: on non-negative quantities below [2 ^ 1074] the two breach
    tests agree: [is_breach] holds exactly when [breach_level] is
    positive. *)
Theorem breach_tests_agree (qin qout : Z) :
  0 <= qin -> 0 <= qout -> Z.max qin qout < 2 ^ 1074 ->
  (UFun.is_breach qin qout = true
   <-> exists v : Q, UFun.breach_level qin qout = Py.ret v /\ (0 < v)%Q).
Proof.
  intros Hin Hout Hsmall. unfold UFun.is_breach. rewrite negb_true_iff, Z.eqb_neq. split.
  - intros Hne. rewrite breach_level_divides_nonneg by lia.
    apply truediv_positive; lia.
  - intros (v & Hv & Hpos) ->.
    destruct (Z.lt_ge_cases (Z.max qout qout) 1) as [Hlt | Hge].
    + rewrite breach_level_early in Hv by exact Hlt. injection Hv as <-. discriminate.
    + rewrite breach_level_divides_nonneg in Hv by exact Hge.
      rewrite Z.sub_diag in Hv. cbn [Z.abs] in Hv.
      rewrite truediv_of_zero in Hv by lia. injection Hv as <-. discriminate.
Qed.

Lemma breach_tests_agree_witness :
  UFun.is_breach 4 10 = true
  <-> exists v : Q, UFun.breach_level 4 10 = Py.ret v /\ (0 < v)%Q.
Proof.
  apply (breach_tests_agree 4 10); [lia | lia |].
  apply Z.lt_le_trans with (2 ^ 4); [reflexivity |]. apply Z.pow_le_mono_r; lia.
Defined.

(** X7: the level is exactly 1 when one of the quantities is zero and
    the other is at least 1. *)
Theorem breach_level_one (qin qout : Z) :
  Z.min qin qout = 0 -> 1 <= Z.max qin qout ->
  UFun.breach_level qin qout = Py.ret 1%Q.
Proof.
  intros Hmin Hmax. rewrite breach_level_divides_nonneg by exact Hmax.
  replace (Z.abs (qin - qout)) with (Z.max qin qout) by lia.
  apply truediv_same. lia.
Qed.

Lemma breach_level_one_witness : UFun.breach_level 7 0 = Py.ret 1%Q.
Proof. apply (breach_level_one 7 0); simpl; lia. Defined.

(** X8: with a negative quantity the two tests part and the level is
    no longer normalised: two different quantities below 1 are a breach
    of level 0, and a negative quantity against one between 1 and
    [2 ^ 52] gives a level above 1, unless the division overflows. *)
Theorem breach_level_negative (qin qout : Z) :
  (Z.max qin qout < 1 -> qin <> qout ->
   UFun.is_breach qin qout = true /\ UFun.breach_level qin qout = Py.ret 0%Q)
  /\ (Z.min qin qout < 0 -> 1 <= Z.max qin qout -> Z.max qin qout <= 2 ^ 52 ->
      UFun.breach_level qin qout = Py.raise Py.OverflowError
      \/ exists v : Q, UFun.breach_level qin qout = Py.ret v /\ (1 < v)%Q).
Proof.
  split.
  - intros Hlt Hne. split; [| now apply breach_level_early].
    unfold UFun.is_breach. now rewrite negb_true_iff, Z.eqb_neq.
  - intros Hmin Hmax Hsmall. rewrite breach_level_divides_nonneg by exact Hmax.
    apply truediv_above_one; lia.
Qed.

Lemma breach_level_negative_witness :
  (UFun.is_breach 0 (-3) = true /\ UFun.breach_level 0 (-3) = Py.ret 0%Q)
  /\ (UFun.breach_level 5 (-2) = Py.raise Py.OverflowError
      \/ exists v : Q, UFun.breach_level 5 (-2) = Py.ret v /\ (1 < v)%Q).
Proof.
  split.
  - apply (proj1 (breach_level_negative 0 (-3))); simpl; lia.
  - apply (proj2 (breach_level_negative 5 (-2))); [simpl; lia | simpl; lia |].
    apply Z.le_trans with (2 ^ 3); [simpl; lia |]. apply Z.pow_le_mono_r; lia.
Defined.

(** ** [OneShotUFun.__call__]: outcomes *)

Section CallOutcomes.

Context `{Countable Key}.
Variables QUANTITY UNIT_PRICE : Key.

Local Abbreviation Contract := (@UFun.Contract Key _ _).
Local Abbreviation call_body := (UFun.call_body QUANTITY UNIT_PRICE).
Local Abbreviation call_loop := (UFun.call_loop QUANTITY UNIT_PRICE).
Local Abbreviation __call__ := (UFun.__call__ QUANTITY UNIT_PRICE).
Local Abbreviation quantity_of := (UFun.quantity_of QUANTITY).
Local Abbreviation value_of := (UFun.value_of QUANTITY UNIT_PRICE).
Local Abbreviation well_formed := (UFun.well_formed QUANTITY UNIT_PRICE).

#[local] Instance well_formed_dec (c : Contract) : Decision (well_formed c).
Proof. unfold UFun.well_formed. apply _. Defined.

Lemma void_well_formed (c : Contract) : UFun.signed_at c < 0 -> well_formed c.
Proof. intros Hneg Hpos. lia. Qed.

Lemma call_loop_all_void (cs : list Contract) (l : UFun.Locals) (u : UFun.OneShotUFun) :
  Forall (fun c => UFun.signed_at c < 0) cs -> call_loop cs l u = (Py.ret l, u).
Proof.
  induction 1 as [| c cs Hc _ IH]; [reflexivity |].
  cbn [UFun.call_loop]. unfold St.bind. now rewrite (call_body_void _ _ c l u Hc).
Qed.

Lemma call_void_value (cs : list Contract) (u : UFun.OneShotUFun) :
  Forall (fun c => UFun.signed_at c < 0) cs ->
  __call__ cs u
  = (Py.ret (UFun.eval (UFun.qin u) (UFun.qout u) (UFun.pin u) (UFun.pout u)
                       (UFun.cost u) (UFun.storage_cost u) (UFun.delivery_penalty u)), u).
Proof.
  intros Hvoid. unfold UFun.__call__, St.bind at 1.
  rewrite (call_loop_all_void cs _ u Hvoid). cbn. unfold St.ret.
  now rewrite !Z.add_0_r.
Qed.

(** X9: on a list without signed contracts, the empty list included,
    [__call__] returns [eval] of the stored exogenous amounts; nothing
    else is read, neither the contracts nor the owner. *)
Theorem call_all_void (cs : list Contract) (u : UFun.OneShotUFun) :
  Forall (fun c => UFun.signed_at c < 0) cs ->
  __call__ cs u
  = (Py.ret (UFun.eval (UFun.qin u) (UFun.qout u) (UFun.pin u) (UFun.pout u)
                       (UFun.cost u) (UFun.storage_cost u) (UFun.delivery_penalty u)), u).
Proof. apply call_void_value. Qed.

(** A signed contract that lacks its product, its quantity or its unit
    price stops the loop with [KeyError]. *)
Lemma call_body_ill_formed (c : Contract) (l : UFun.Locals) (u : UFun.OneShotUFun)
    (a : Awi.AWI) :
  Awi.awi (UFun.owner u) = Some a ->
  ~ well_formed c ->
  call_body c l u = (Py.raise Py.KeyError, u).
Proof.
  intros Hawi Hill. unfold UFun.call_body.
  destruct (Z.ltb_spec (UFun.signed_at c) 0) as [Hneg | Hpos].
  { exfalso. apply Hill. now apply void_well_formed. }
  unfold St.bind, St.lift, St.get, St.ret, Py.getitem, Py.ret, Py.raise.
  destruct (UFun.annotation c !! "product") as [p |] eqn:Hp; [| reflexivity].
  cbn. rewrite Hawi. cbn.
  destruct (UFun.agreement c !! QUANTITY) as [q |] eqn:Hq;
    [| now destruct (p =? Awi.my_output_product a)].
  destruct (UFun.agreement c !! UNIT_PRICE) as [v |] eqn:Hv;
    [| now destruct (p =? Awi.my_output_product a)].
  exfalso. apply Hill. intros _. rewrite Hp, Hq, Hv. eauto.
Qed.

Lemma call_loop_ill_formed (cs : list Contract) (l : UFun.Locals) (u : UFun.OneShotUFun)
    (a : Awi.AWI) :
  Awi.awi (UFun.owner u) = Some a ->
  ~ Forall well_formed cs ->
  call_loop cs l u = (Py.raise Py.KeyError, u).
Proof.
  intros Hawi. revert l. induction cs as [| c cs IH]; intros l Hill.
  - exfalso. apply Hill. constructor.
  - cbn [UFun.call_loop]. unfold St.bind.
    destruct (decide (well_formed c)) as [Hc | Hc].
    + assert (Hrest : ~ Forall well_formed cs).
      { intros Hall. apply Hill. now constructor. }
      destruct (Z.lt_ge_cases (UFun.signed_at c) 0) as [Hneg | Hpos].
      * rewrite (call_body_void _ _ c l u Hneg). now apply IH.
      * rewrite (call_body_signed _ _ c l u a Hawi Hpos Hc). cbn [Py.ret]. now apply IH.
    + now rewrite (call_body_ill_formed c l u a Hawi Hc).
Qed.

Lemma call_well_formed (cs : list Contract) (u : UFun.OneShotUFun) (a : Awi.AWI) :
  Awi.awi (UFun.owner u) = Some a ->
  Forall well_formed cs ->
  let out := Awi.my_output_product a in
  __call__ cs u =
    (Py.ret (UFun.eval
               (UFun.qin u + UFun.total (UFun.bought out) quantity_of cs)
               (UFun.qout u + UFun.total (UFun.sold out) quantity_of cs)
               (UFun.pin u + UFun.total (UFun.bought out) value_of cs)
               (UFun.pout u + UFun.total (UFun.sold out) value_of cs)
               (UFun.cost u) (UFun.storage_cost u) (UFun.delivery_penalty u)), u).
Proof.
  intros Hawi Hall out. unfold UFun.__call__, St.bind at 1.
  rewrite (call_loop_value _ _ cs _ u a Hawi Hall). reflexivity.
Qed.

Lemma call_ill_formed (cs : list Contract) (u : UFun.OneShotUFun) (a : Awi.AWI) :
  Awi.awi (UFun.owner u) = Some a ->
  ~ Forall well_formed cs ->
  __call__ cs u = (Py.raise Py.KeyError, u).
Proof.
  intros Hawi Hill. unfold UFun.__call__, St.bind at 1.
  now rewrite (call_loop_ill_formed cs _ u a Hawi Hill).
Qed.

(** X10: on contracts whose annotation and agreement are dictionaries,
    and for an owner that has joined a world, [__call__] raises
    [KeyError] exactly when some signed contract lacks its product, its
    quantity or its unit price; otherwise it returns. *)
Theorem call_key_error (cs : list Contract) (u : UFun.OneShotUFun) (a : Awi.AWI) :
  Awi.awi (UFun.owner u) = Some a ->
  ((__call__ cs u).1 = Py.raise Py.KeyError <-> ~ Forall well_formed cs)
  /\ ((exists v : Z, (__call__ cs u).1 = Py.ret v) <-> Forall well_formed cs).
Proof.
  intros Hawi.
  destruct (decide (Forall well_formed cs)) as [Hall | Hill].
  - rewrite (call_well_formed cs u a Hawi Hall). cbn [fst]. split; split.
    + discriminate.
    + contradiction.
    + intros _. exact Hall.
    + intros _. eexists. reflexivity.
  - rewrite (call_ill_formed cs u a Hawi Hill). cbn [fst]. split; split.
    + intros _. exact Hill.
    + reflexivity.
    + intros [v Hv]. discriminate.
    + contradiction.
Qed.

(** *** An owner that has not joined a world *)

Lemma call_body_detached (c : Contract) (l : UFun.Locals) (u : UFun.OneShotUFun) :
  Awi.awi (UFun.owner u) = None ->
  0 <= UFun.signed_at c ->
  call_body c l u
  = (Py.raise (match UFun.annotation c !! "product" with
               | Some _ => Py.AttributeError
               | None => Py.KeyError
               end), u).
Proof.
  intros Hawi Hpos. unfold UFun.call_body.
  destruct (Z.ltb_spec (UFun.signed_at c) 0); [lia |].
  unfold St.bind, St.lift, St.get, St.ret, Py.getitem, Py.ret, Py.raise.
  destruct (UFun.annotation c !! "product") as [p |]; [| reflexivity].
  cbn. now rewrite Hawi.
Qed.

Lemma call_loop_first_signed (voids rest : list Contract) (c : Contract) (l : UFun.Locals)
    (u : UFun.OneShotUFun) :
  Forall (fun c => UFun.signed_at c < 0) voids ->
  call_loop (voids ++ c :: rest) l u
  = St.bind (call_body c l) (fun l' => call_loop rest l') u.
Proof.
  induction 1 as [| v voids Hv _ IH]; [reflexivity |].
  cbn [app UFun.call_loop]. unfold St.bind at 1.
  rewrite (call_body_void _ _ v l u Hv). exact IH.
Qed.

Lemma first_signed (cs : list Contract) :
  ~ Forall (fun c => UFun.signed_at c < 0) cs ->
  exists voids c rest,
    cs = voids ++ c :: rest
    /\ Forall (fun c => UFun.signed_at c < 0) voids
    /\ 0 <= UFun.signed_at c.
Proof.
  induction cs as [| c cs IH]; intros Hsome.
  - exfalso. apply Hsome. constructor.
  - destruct (Z.lt_ge_cases (UFun.signed_at c) 0) as [Hneg | Hpos].
    + destruct IH as (voids & c' & rest & -> & Hvoids & Hc').
      { intros Hall. apply Hsome. now constructor. }
      exists (c :: voids), c', rest. repeat split; [now constructor | exact Hc'].
    + exists [], c, cs. repeat split; [constructor | exact Hpos].
Qed.

(** X11: for an owner that has not joined a world, [__call__] returns
    exactly when no contract of the list is signed; otherwise the first
    signed contract makes it raise, [AttributeError] when that contract
    is annotated with a product and [KeyError] when it is not. *)
Theorem call_detached (cs : list Contract) (u : UFun.OneShotUFun) :
  Awi.awi (UFun.owner u) = None ->
  ((exists v : Z, (__call__ cs u).1 = Py.ret v)
   <-> Forall (fun c => UFun.signed_at c < 0) cs)
  /\ (forall (voids rest : list Contract) (c : Contract),
        cs = voids ++ c :: rest ->
        Forall (fun c => UFun.signed_at c < 0) voids ->
        0 <= UFun.signed_at c ->
        (__call__ cs u).1
        = Py.raise (match UFun.annotation c !! "product" with
                    | Some _ => Py.AttributeError
                    | None => Py.KeyError
                    end)).
Proof.
  intros Hawi.
  assert (Hraise : forall voids rest c,
            cs = voids ++ c :: rest ->
            Forall (fun c => UFun.signed_at c < 0) voids ->
            0 <= UFun.signed_at c ->
            (__call__ cs u).1
            = Py.raise (match UFun.annotation c !! "product" with
                        | Some _ => Py.AttributeError
                        | None => Py.KeyError
                        end)).
  { intros voids rest c -> Hvoids Hpos. unfold UFun.__call__, St.bind at 1.
    rewrite (call_loop_first_signed voids rest c _ u Hvoids). unfold St.bind at 1.
    now rewrite (call_body_detached c _ u Hawi Hpos). }
  split; [| exact Hraise]. split.
  - intros [v Hv].
    destruct (decide (Forall (fun c => UFun.signed_at c < 0) cs)) as [Hall | Hsome];
      [exact Hall |].
    destruct (first_signed cs Hsome) as (voids & c & rest & Hcs & Hvoids & Hpos).
    rewrite (Hraise voids rest c Hcs Hvoids Hpos) in Hv. discriminate.
  - intros Hall. rewrite (call_void_value cs u Hall). eexists. reflexivity.
Qed.

(** *** Order and grouping of the contracts *)

Lemma total_Permutation (sel : Contract -> bool) (f : Contract -> Z) (cs cs' : list Contract) :
  cs ≡ₚ cs' -> UFun.total sel f cs = UFun.total sel f cs'.
Proof.
  induction 1 as [| c cs cs' _ IH | c c' cs | cs cs' cs'' _ IH1 _ IH2].
  - reflexivity.
  - rewrite !total_cons. now rewrite IH.
  - rewrite !total_cons. destruct (sel c), (sel c'); lia.
  - now rewrite IH1.
Qed.

Lemma total_app (sel : Contract -> bool) (f : Contract -> Z) (cs cs' : list Contract) :
  UFun.total sel f (cs ++ cs') = UFun.total sel f cs + UFun.total sel f cs'.
Proof.
  induction cs as [| c cs IH]; [reflexivity |].
  cbn [app]. rewrite !total_cons, IH. destruct (sel c); lia.
Qed.

(** X12: for an owner that has joined a world, whether [__call__]
    returns and the value it returns do not depend on the order of the
    contracts (which exception is raised may). *)
Theorem call_permutation (cs cs' : list Contract) (u : UFun.OneShotUFun) (a : Awi.AWI) :
  Awi.awi (UFun.owner u) = Some a ->
  cs ≡ₚ cs' ->
  forall v : Z, (__call__ cs u).1 = Py.ret v <-> (__call__ cs' u).1 = Py.ret v.
Proof.
  intros Hawi Hperm v.
  destruct (decide (Forall well_formed cs)) as [Hall | Hill].
  - assert (Hall' : Forall well_formed cs') by now rewrite <- Hperm.
    rewrite (call_well_formed cs u a Hawi Hall), (call_well_formed cs' u a Hawi Hall').
    now rewrite !(total_Permutation _ _ cs cs' Hperm).
  - assert (Hill' : ~ Forall well_formed cs') by now rewrite <- Hperm.
    rewrite (call_ill_formed cs u a Hawi Hill), (call_ill_formed cs' u a Hawi Hill').
    reflexivity.
Qed.

(** X13: contracts can be moved into the exogenous baseline: for an
    owner that has joined a world, evaluating a first batch of complete
    contracts followed by any second batch gives the outcome of
    evaluating the second batch alone with an evaluator whose stored
    exogenous amounts are increased by the sums of the first batch. *)
Theorem call_app_baseline (cs1 cs2 : list Contract) (u : UFun.OneShotUFun) (a : Awi.AWI) :
  Awi.awi (UFun.owner u) = Some a ->
  Forall well_formed cs1 ->
  let out := Awi.my_output_product a in
  (__call__ (cs1 ++ cs2) u).1
  = (__call__ cs2
       (Baseline.shift (UFun.total (UFun.bought out) quantity_of cs1)
                       (UFun.total (UFun.sold out) quantity_of cs1)
                       (UFun.total (UFun.bought out) value_of cs1)
                       (UFun.total (UFun.sold out) value_of cs1) u)).1.
Proof.
  intros Hawi Hall1 out.
  set (u' := Baseline.shift _ _ _ _ u).
  assert (Hawi' : Awi.awi (UFun.owner u') = Some a) by exact Hawi.
  destruct (decide (Forall well_formed cs2)) as [Hall2 | Hill2].
  - assert (Hall : Forall well_formed (cs1 ++ cs2)) by now apply Forall_app.
    rewrite (call_well_formed _ u a Hawi Hall), (call_well_formed _ u' a Hawi' Hall2).
    cbn [fst]. fold out. rewrite !total_app. subst u'.
    cbn [Baseline.shift UFun.qin UFun.qout UFun.pin UFun.pout UFun.cost
         UFun.storage_cost UFun.delivery_penalty].
    rewrite !Z.add_assoc. reflexivity.
  - assert (Hill : ~ Forall well_formed (cs1 ++ cs2)).
    { intros [_ Hall2]%Forall_app. contradiction. }
    now rewrite (call_ill_formed _ u a Hawi Hill), (call_ill_formed _ u' a Hawi' Hill2).
Qed.

End CallOutcomes.

(** ** [OneShotUFun.__init__] *)

(** Distinct keywords that name a parameter are bound one after the
    other. *)
Lemma bind_keywords_accepted (sig : list (string * option UFun.value))
    (kwargs : list (string * UFun.value)) (bound : gmap string UFun.value) :
  NoDup kwargs.*1 ->
  Forall (fun k => k ∈ sig.*1) kwargs.*1 ->
  Forall (fun k => bound !! k = None) kwargs.*1 ->
  UFun.bind_keywords sig kwargs bound
  = Py.ret (foldl (fun m kv => <[kv.1 := kv.2]> m) bound kwargs).
Proof.
  revert bound. induction kwargs as [| [k v] kwargs IH]; intros bound Hnd Hall Hfree;
    [reflexivity |].
  cbn in Hnd, Hall, Hfree.
  apply NoDup_cons in Hnd as [Hk Hnd].
  apply Forall_cons in Hall as [Hin Hall].
  apply Forall_cons in Hfree as [Hnone Hfree].
  cbn [UFun.bind_keywords foldl]. rewrite bool_decide_eq_true_2 by exact Hin.
  rewrite Hnone. apply IH; [exact Hnd | exact Hall |].
  rewrite Forall_forall in Hfree |- *. intros k' Hk'. cbn.
  rewrite lookup_insert_ne; [now apply Hfree | congruence].
Qed.

(** Whatever is bound was given by distinct keywords that name a
    parameter and were not bound before. *)
Lemma bind_keywords_returns (sig : list (string * option UFun.value))
    (kwargs : list (string * UFun.value)) (bound bound' : gmap string UFun.value) :
  UFun.bind_keywords sig kwargs bound = Py.ret bound' ->
  NoDup kwargs.*1
  /\ Forall (fun k => k ∈ sig.*1) kwargs.*1
  /\ Forall (fun k => bound !! k = None) kwargs.*1.
Proof.
  revert bound. induction kwargs as [| [k v] kwargs IH]; intros bound Hret.
  - repeat split; constructor.
  - cbn [UFun.bind_keywords] in Hret.
    case_bool_decide as Hin; [| discriminate].
    destruct (bound !! k) eqn:Hk; [discriminate |].
    destruct (IH _ Hret) as (Hnd & Hall & Hfree). cbn.
    assert (Hfresh : k ∉ kwargs.*1).
    { intros Hk'. rewrite Forall_forall in Hfree. specialize (Hfree k Hk').
      now rewrite lookup_insert_eq in Hfree. }
    split; [now constructor |]. split; [now constructor |].
    constructor; [exact Hk |].
    rewrite Forall_forall in Hfree |- *. intros k' Hk'.
    specialize (Hfree k' Hk'). rewrite lookup_insert_ne in Hfree; [exact Hfree |].
    intros ->. contradiction.
Qed.

Lemma bind_keywords_outcome (sig : list (string * option UFun.value))
    (kwargs : list (string * UFun.value)) (bound : gmap string UFun.value) :
  (exists bound', UFun.bind_keywords sig kwargs bound = Py.ret bound')
  \/ UFun.bind_keywords sig kwargs bound = Py.raise Py.TypeError.
Proof.
  revert bound. induction kwargs as [| [k v] kwargs IH]; intros bound; [left; eauto |].
  cbn [UFun.bind_keywords]. case_bool_decide; [| now right].
  destruct (bound !! k); [now right | apply IH].
Qed.

Lemma bound_lookup_other (kwargs : list (string * UFun.value))
    (bound : gmap string UFun.value) (k : string) :
  k ∉ kwargs.*1 ->
  foldl (fun m kv => <[kv.1 := kv.2]> m) bound kwargs !! k = bound !! k.
Proof.
  revert bound. induction kwargs as [| [k' v'] kwargs IH]; intros bound Hk; [reflexivity |].
  cbn in Hk. apply not_elem_of_cons in Hk as [Hne Hk].
  cbn [foldl]. rewrite IH by exact Hk. cbn. now apply lookup_insert_ne.
Qed.

Lemma bound_lookup (kwargs : list (string * UFun.value))
    (bound : gmap string UFun.value) (k : string) (v : UFun.value) :
  NoDup kwargs.*1 -> (k, v) ∈ kwargs ->
  foldl (fun m kv => <[kv.1 := kv.2]> m) bound kwargs !! k = Some v.
Proof.
  revert bound. induction kwargs as [| [k' v'] kwargs IH]; intros bound Hnd Hin.
  - now apply elem_of_nil in Hin.
  - cbn in Hnd. apply NoDup_cons in Hnd as [Hfresh Hnd]. cbn [foldl].
    apply elem_of_cons in Hin as [Heq | Hin].
    + injection Heq as <- <-. rewrite bound_lookup_other by exact Hfresh.
      cbn. apply lookup_insert_eq.
    + now apply IH.
Qed.

Lemma bound_is_Some (kwargs : list (string * UFun.value))
    (bound : gmap string UFun.value) (k : string) :
  k ∈ kwargs.*1 ->
  is_Some (foldl (fun m kv => <[kv.1 := kv.2]> m) bound kwargs !! k).
Proof.
  revert bound. induction kwargs as [| [k' v'] kwargs IH]; intros bound Hin.
  - now apply elem_of_nil in Hin.
  - cbn in Hin. cbn [foldl]. destruct (decide (k ∈ kwargs.*1)) as [Hlater | Hnot].
    + now apply IH.
    + apply elem_of_cons in Hin as [-> | Hin]; [| contradiction].
      rewrite bound_lookup_other by exact Hnot. cbn. rewrite lookup_insert_eq. eauto.
Qed.

(** Completing the bound arguments with the defaults. *)
Lemma fill_defaults_complete (sig : list (string * option UFun.value))
    (bound : gmap string UFun.value) :
  NoDup sig.*1 ->
  (forall k, (k, None) ∈ sig -> is_Some (bound !! k)) ->
  exists args,
    UFun.fill_defaults sig bound = Py.ret args
    /\ (forall k v, bound !! k = Some v -> args !! k = Some v)
    /\ (forall k, k ∈ sig.*1 -> is_Some (args !! k))
    /\ (forall k d, (k, Some d) ∈ sig -> bound !! k = None -> args !! k = Some d).
Proof.
  revert bound. induction sig as [| [k0 dflt] sig IH]; intros bound Hnd Hreq.
  - exists bound. repeat split; [auto | | ].
    + intros k Hk. now apply elem_of_nil in Hk.
    + intros k d Hk. now apply elem_of_nil in Hk.
  - cbn in Hnd. apply NoDup_cons in Hnd as [Hfresh Hnd]. cbn [UFun.fill_defaults].
    destruct (bound !! k0) as [v0 |] eqn:Hk0.
    + destruct (IH bound Hnd) as (args & Hret & Hkeep & Hall & Hdef).
      { intros k Hk. apply Hreq. now right. }
      exists args. split; [exact Hret |]. split; [exact Hkeep |]. split.
      * intros k [Heq | Hk]%elem_of_cons; [| now apply Hall].
        cbn in Heq. subst k. rewrite (Hkeep _ _ Hk0). eauto.
      * intros k d [Heq | Hk]%elem_of_cons Hnone; [| now apply Hdef].
        injection Heq as -> ->. congruence.
    + destruct dflt as [d0 |].
      * destruct (IH (<[k0 := d0]> bound) Hnd) as (args & Hret & Hkeep & Hall & Hdef).
        { intros k Hk. destruct (Hreq k) as [v Hv]; [now right |].
          exists v. rewrite lookup_insert_ne; [exact Hv | congruence]. }
        exists args. split; [exact Hret |]. split; [| split].
        -- intros k v Hv. apply Hkeep. rewrite lookup_insert_ne; [exact Hv | congruence].
        -- intros k [Heq | Hk]%elem_of_cons; [| now apply Hall].
           cbn in Heq. subst k. rewrite (Hkeep k0 d0); [eauto | apply lookup_insert_eq].
        -- intros k d [Heq | Hk]%elem_of_cons Hnone.
           ++ injection Heq as -> ->. apply Hkeep, lookup_insert_eq.
           ++ apply Hdef; [exact Hk |]. rewrite lookup_insert_ne; [exact Hnone |].
              intros ->. apply Hfresh. apply list_elem_of_fmap. now exists (k, Some d).
      * destruct (Hreq k0) as [v Hv]; [now left | congruence].
Qed.

Lemma fill_defaults_missing (sig : list (string * option UFun.value))
    (bound : gmap string UFun.value) (k : string) :
  NoDup sig.*1 -> (k, None) ∈ sig -> bound !! k = None ->
  UFun.fill_defaults sig bound = Py.raise Py.TypeError.
Proof.
  revert bound. induction sig as [| [k0 dflt] sig IH]; intros bound Hnd Hin Hnone.
  - now apply elem_of_nil in Hin.
  - cbn in Hnd. apply NoDup_cons in Hnd as [Hfresh Hnd]. cbn [UFun.fill_defaults].
    apply elem_of_cons in Hin as [Heq | Hin].
    + injection Heq as <- <-. now rewrite Hnone.
    + assert (Hne : k0 <> k).
      { intros ->. apply Hfresh. apply list_elem_of_fmap. now exists (k, None). }
      destruct (bound !! k0) as [v0 |]; [now apply IH |].
      destruct dflt as [d0 |]; [| reflexivity].
      apply IH; [exact Hnd | exact Hin |]. now rewrite lookup_insert_ne.
Qed.

Lemma init_signature_NoDup : NoDup UFun.init_signature.*1.
Proof. apply (bool_decide_unpack _). vm_compute. exact I. Qed.

Lemma owner_required : ("owner", None) ∈ UFun.init_signature.
Proof. left. Qed.

Lemma only_owner_required (k : string) :
  (k, None) ∈ UFun.init_signature -> k = "owner".
Proof.
  unfold UFun.init_signature. rewrite !elem_of_cons, elem_of_nil.
  intros Hk. repeat (destruct Hk as [Hk | Hk]; [congruence |]). contradiction.
Qed.

Ltac in_signature := apply (bool_decide_unpack _); vm_compute; exact I.

(** Once every parameter has its argument the body stores each under
    its own name and nothing else. *)
Lemma init_from_args (kwargs : list (string * UFun.value))
    (bound args : gmap string UFun.value) :
  UFun.bind_keywords UFun.init_signature kwargs ∅ = Py.ret bound ->
  UFun.fill_defaults UFun.init_signature bound = Py.ret args ->
  (forall k, k ∈ UFun.init_signature.*1 -> is_Some (args !! k)) ->
  exists d,
    UFun.__init__ kwargs = Py.ret d
    /\ (forall k, k ∈ UFun.init_signature.*1 -> d !! k = args !! k)
    /\ (forall k, k ∉ UFun.init_signature.*1 -> d !! k = None).
Proof.
  intros Hbound Hargs Hall. unfold UFun.__init__. rewrite Hbound. cbn [Py.bind Py.ret].
  rewrite Hargs. cbn [Py.bind Py.ret]. unfold Py.getitem.
  destruct (Hall "owner" ltac:(in_signature)) as [v1 H1].
  destruct (Hall "pin" ltac:(in_signature)) as [v2 H2].
  destruct (Hall "pout" ltac:(in_signature)) as [v3 H3].
  destruct (Hall "qin" ltac:(in_signature)) as [v4 H4].
  destruct (Hall "qout" ltac:(in_signature)) as [v5 H5].
  destruct (Hall "cost" ltac:(in_signature)) as [v6 H6].
  destruct (Hall "storage_cost" ltac:(in_signature)) as [v7 H7].
  destruct (Hall "delivery_penalty" ltac:(in_signature)) as [v8 H8].
  rewrite H1, H2, H3, H4, H5, H6, H7, H8. cbn [Py.bind Py.ret].
  eexists. split; [reflexivity |]. split.
  - intros k Hk. cbn in Hk. rewrite !elem_of_cons, elem_of_nil in Hk.
    repeat (destruct Hk as [-> | Hk];
            [rewrite ?H1, ?H2, ?H3, ?H4, ?H5, ?H6, ?H7, ?H8; vm_compute; reflexivity |]).
    contradiction.
  - intros k Hk. cbn in Hk. rewrite !not_elem_of_cons in Hk.
    destruct Hk as (? & ? & ? & ? & ? & ? & ? & ? & _).
    rewrite !lookup_insert_ne by congruence. apply lookup_empty.
Qed.

(** X14: [OneShotUFun.__init__], called with keywords, returns an
    instance exactly when the keywords are distinct, every one of them
    names one of its parameters, and [owner], the only parameter without
    a default, is among them; in every other case it raises
    [TypeError]. *)
Theorem init_outcome (kwargs : list (string * UFun.value)) :
  let accepted :=
    NoDup kwargs.*1
    /\ Forall (fun k => k ∈ UFun.init_signature.*1) kwargs.*1
    /\ "owner" ∈ kwargs.*1 in
  ((exists d, UFun.__init__ kwargs = Py.ret d) <-> accepted)
  /\ (UFun.__init__ kwargs = Py.raise Py.TypeError <-> ~ accepted).
Proof.
  cbn zeta.
  destruct (bind_keywords_outcome UFun.init_signature kwargs ∅) as [[bound Hbound] | Hraise].
  - destruct (bind_keywords_returns _ _ _ _ Hbound) as (Hnd & Hall & Hfree).
    pose proof (bind_keywords_accepted _ kwargs ∅ Hnd Hall Hfree) as Hfold.
    rewrite Hbound in Hfold. injection Hfold as ->.
    set (bound := foldl _ _ kwargs) in *.
    destruct (decide ("owner" ∈ kwargs.*1)) as [Howner | Hmissing].
    + destruct (fill_defaults_complete UFun.init_signature bound init_signature_NoDup)
        as (args & Hargs & _ & Hfull & _).
      { intros k ->%only_owner_required. apply bound_is_Some, Howner. }
      destruct (init_from_args kwargs _ args Hbound Hargs Hfull) as (d & Hd & _).
      rewrite Hd. split; split.
      * intros _. now repeat split.
      * intros _. now exists d.
      * discriminate.
      * intros Hnot. exfalso. apply Hnot. now repeat split.
    + assert (Hraise : UFun.__init__ kwargs = Py.raise Py.TypeError).
      { unfold UFun.__init__. rewrite Hbound. cbn [Py.bind Py.ret].
        rewrite (fill_defaults_missing _ _ "owner" init_signature_NoDup owner_required);
          [reflexivity |].
        subst bound. rewrite bound_lookup_other by exact Hmissing. apply lookup_empty. }
      rewrite Hraise. split; split.
      * intros [d Hd]. discriminate.
      * intros (_ & _ & Howner). contradiction.
      * intros _ (_ & _ & Howner). contradiction.
      * reflexivity.
  - assert (Hinit : UFun.__init__ kwargs = Py.raise Py.TypeError).
    { unfold UFun.__init__. now rewrite Hraise. }
    assert (Hnot : ~ (NoDup kwargs.*1
                      /\ Forall (fun k => k ∈ UFun.init_signature.*1) kwargs.*1
                      /\ "owner" ∈ kwargs.*1)).
    { intros (Hnd & Hall & _).
      rewrite (bind_keywords_accepted _ kwargs ∅ Hnd Hall) in Hraise; [discriminate |].
      rewrite Forall_forall. intros k _. apply lookup_empty. }
    rewrite Hinit. split; split.
    + intros [d Hd]. discriminate.
    + intros Hacc. contradiction.
    + intros _. exact Hnot.
    + reflexivity.
Qed.

(** X15: when [OneShotUFun.__init__] is called with distinct keywords
    that are accepted, the instance has exactly the attributes named by
    the parameters: each keyword's value under its name, and the default
    of every parameter that was not passed. *)
Theorem init_stores (kwargs : list (string * UFun.value)) :
  NoDup kwargs.*1 ->
  Forall (fun k => k ∈ UFun.init_signature.*1) kwargs.*1 ->
  "owner" ∈ kwargs.*1 ->
  exists d,
    UFun.__init__ kwargs = Py.ret d
    /\ (forall k v, (k, v) ∈ kwargs -> d !! k = Some v)
    /\ (forall k dflt, (k, Some dflt) ∈ UFun.init_signature -> k ∉ kwargs.*1 ->
                       d !! k = Some dflt)
    /\ (forall k, is_Some (d !! k) <-> k ∈ UFun.init_signature.*1).
Proof.
  intros Hnd Hall Howner.
  assert (Hfree : Forall (fun k => (∅ : gmap string UFun.value) !! k = None) kwargs.*1).
  { rewrite Forall_forall. intros k _. apply lookup_empty. }
  pose proof (bind_keywords_accepted _ kwargs ∅ Hnd Hall Hfree) as Hbound.
  set (bound := foldl _ _ kwargs) in Hbound.
  destruct (fill_defaults_complete UFun.init_signature bound init_signature_NoDup)
    as (args & Hargs & Hkeep & Hfull & Hdef).
  { intros k ->%only_owner_required. apply bound_is_Some, Howner. }
  destruct (init_from_args kwargs _ args Hbound Hargs Hfull) as (d & Hd & Hsame & Hnone).
  exists d. split; [exact Hd |]. split; [| split].
  - intros k v Hin.
    assert (Hk : k ∈ UFun.init_signature.*1).
    { rewrite Forall_forall in Hall. apply Hall. apply list_elem_of_fmap. now exists (k, v). }
    rewrite (Hsame k Hk). apply Hkeep. now apply bound_lookup.
  - intros k dflt Hin Hnot.
    assert (Hk : k ∈ UFun.init_signature.*1).
    { apply list_elem_of_fmap. now exists (k, Some dflt). }
    rewrite (Hsame k Hk). apply Hdef; [exact Hin |].
    subst bound. rewrite bound_lookup_other by exact Hnot. apply lookup_empty.
  - intros k. split.
    + intros Hsome. destruct (decide (k ∈ UFun.init_signature.*1)) as [Hk | Hk]; [exact Hk |].
      rewrite (Hnone k Hk) in Hsome. now destruct Hsome.
    + intros Hk. rewrite (Hsame k Hk). now apply Hfull.
Qed.

Lemma init_round_trip_computed (u : UFun.OneShotUFun) :
  match UFun.__init__ (Baseline.kwargs_of u) with
  | inr d => UFun.of_attrs d
  | inl _ => None
  end = Some u.
Proof. destruct u as [o p1 q1 p2 q2 c s dp]. vm_compute. reflexivity. Qed.

(** X16: building an evaluator from all of its attributes passed by
    keyword gives back an instance with these very attributes. *)
Theorem init_round_trip (u : UFun.OneShotUFun) :
  exists d, UFun.__init__ (Baseline.kwargs_of u) = Py.ret d /\ UFun.of_attrs d = Some u.
Proof.
  pose proof (init_round_trip_computed u) as Hu.
  destruct (UFun.__init__ (Baseline.kwargs_of u)) as [e | d]; [discriminate |].
  now exists d.
Qed.

(** ** The remaining methods of [sysagents.py] *)

Lemma getitem_first {A : Type} (l : list A) :
  PySeq.getitem l 0 = match l with
                      | [] => inl PySeq.IndexError
                      | x :: _ => inr x
                      end.
Proof.
  unfold PySeq.getitem, PySeq.len. destruct l as [| x l]; [reflexivity |].
  cbn [Z.ltb Z.compare orb length].
  destruct (Z.leb_spec (Z.of_nat (S (length l))) 0); [lia | reflexivity].
Qed.

Lemma concat_replicate_singleton {A : Type} (x : A) (n : nat) :
  concat (replicate n [x]) = replicate n x.
Proof. induction n as [| n IH]; [reflexivity |]. cbn. now rewrite IH. Qed.

Lemma repeat_singleton {A : Type} (x : A) {C : Type} (l : list C) :
  PySeq.repeat [x] (PySeq.len l) = replicate (length l) x.
Proof.
  unfold PySeq.repeat, PySeq.len.
  destruct (Z.leb_spec (Z.of_nat (length l)) 0) as [Hle | Hgt].
  - destruct l; [reflexivity | cbn in Hle; lia].
  - rewrite Nat2Z.id. apply concat_replicate_singleton.
Qed.

Section AdapterProperties.

Variables Obj Neg : Type.
Variable truthy : Obj -> bool.
Variable create_negotiator : Obj -> string -> Neg.

Local Abbreviation respond :=
  (Adapter._respond_to_negotiation_request truthy create_negotiator).

Lemma others_nil (me : string) (partners : list string) :
  filter (fun p => p <> me) partners = [] <-> Forall (fun p => p = me) partners.
Proof.
  induction partners as [| p partners IH]; [split; [constructor | reflexivity] |].
  destruct (decide (p = me)) as [-> | Hne].
  - rewrite filter_cons_False by auto. rewrite IH. split.
    + intros Hall. now constructor.
    + intros Hall. now apply Forall_cons in Hall as [_ Hall].
  - rewrite filter_cons_True by exact Hne. split; [discriminate |].
    intros Hall. apply Forall_cons in Hall as [Hp _]. contradiction.
Qed.

(** X17: [_respond_to_negotiation_request] raises [IndexError] exactly
    when no partner differs from the adapter's own id, an empty list of
    partners included, and it does so whether or not the adapter holds
    an agent. *)
Theorem respond_index_error (self : Adapter.DefaultOneShotAdapter Obj) (partners : list string) :
  respond self partners = inl PySeq.IndexError
  <-> Forall (fun p => p = Adapter.id self) partners.
Proof.
  unfold Adapter._respond_to_negotiation_request. rewrite getitem_first.
  rewrite <- others_nil.
  destruct (filter _ partners) as [| p others]; [split; reflexivity |].
  split; [| discriminate].
  destruct (Adapter._obj self) as [o |]; [destruct (truthy o) |]; discriminate.
Qed.

(** X18: when some partner differs from the adapter's id, the first
    such partner in the list is the one negotiated with: the result is
    [None] when [not self._obj] holds (no adapted agent, or one that
    counts as false), and otherwise what the agent's
    [create_negotiator] gives for that partner's name. *)
Theorem respond_first_other (self : Adapter.DefaultOneShotAdapter Obj)
    (before after : list string) (partner : string) :
  Forall (fun p => p = Adapter.id self) before ->
  partner <> Adapter.id self ->
  respond self (before ++ partner :: after)
  = inr (match Adapter._obj self with
         | None => None
         | Some o => if truthy o then Some (create_negotiator o partner) else None
         end).
Proof.
  intros Hbefore Hne. unfold Adapter._respond_to_negotiation_request.
  rewrite getitem_first, filter_app.
  apply others_nil in Hbefore. rewrite Hbefore. cbn [app].
  rewrite filter_cons_True by exact Hne.
  destruct (Adapter._obj self) as [o |]; [now destruct (truthy o) | reflexivity].
Qed.

(** X19: a system agent initialised with a role signs every contract
    it is shown with that role: the answer has one entry per contract,
    each the role, and none is [None]. *)
Theorem sign_all_contracts_signs {C : Type} (role : string)
    (self : Adapter.DefaultOneShotAdapter Obj) (contracts : list C) :
  Adapter.sign_all_contracts (Adapter.system_init role self) contracts
  = replicate (length contracts) (Some role)
  /\ length (Adapter.sign_all_contracts (Adapter.system_init role self) contracts)
     = length contracts
  /\ None ∉ Adapter.sign_all_contracts (Adapter.system_init role self) contracts.
Proof.
  unfold Adapter.sign_all_contracts. cbn [Adapter.system_init Adapter.id].
  rewrite repeat_singleton. split; [reflexivity |]. split; [apply length_replicate |].
  intros [Hin _]%elem_of_replicate. discriminate.
Qed.

(** X20: the dictionary of a system agent initialised with a role has
    exactly the keys [id], [name], [type], [level] and [levels]; the
    role is both its id and its name, its type is ["System"], and the
    level entries are [None] without an [awi] and the input product
    and its one-element list with one. *)
Theorem system_to_dict (role : string) (self : Adapter.DefaultOneShotAdapter Obj) :
  Adapter.class self = Adapter.System ->
  let d := Adapter.to_dict (Adapter.system_init role self) in
  dom d = {[ "id"; "name"; "type"; "level"; "levels" ]}
  /\ d !! "id" = Some (Adapter.VStr role)
  /\ d !! "name" = Some (Adapter.VStr role)
  /\ d !! "type" = Some (Adapter.VStr "System")
  /\ match Adapter.awi self with
     | None => d !! "level" = Some Adapter.VNone /\ d !! "levels" = Some Adapter.VNone
     | Some a => d !! "level" = Some (Adapter.VNum (Awi.my_input_product a))
                 /\ d !! "levels" = Some (Adapter.VList [Awi.my_input_product a])
     end.
Proof.
  intros Hclass d. subst d. unfold Adapter.to_dict, Adapter.type_name.
  cbn [Adapter.system_init Adapter.id Adapter.name Adapter.class Adapter.awi].
  rewrite Hclass. split.
  - rewrite !dom_insert_L, dom_empty_L. set_solver.
  - destruct (Adapter.awi self); repeat split; reflexivity.
Qed.

End AdapterProperties.

(** ** The further properties on concrete inputs *)

Lemma call_all_void_witness :
  UFun.__call__ "quantity" "unit_price"
    [MoreExamples.blank; MoreExamples.cancelled] MoreExamples.orphan
  = (Py.ret (UFun.eval 0 0 0 0 2 5 5), MoreExamples.orphan).
Proof.
  apply (call_all_void "quantity" "unit_price"
           [MoreExamples.blank; MoreExamples.cancelled] MoreExamples.orphan).
  repeat constructor.
Defined.

Lemma call_key_error_witness :
  (UFun.__call__ "quantity" "unit_price"
     [MoreExamples.sale; MoreExamples.unpriced] Examples.ufun12).1
  = Py.raise Py.KeyError.
Proof.
  apply (proj2 (proj1 (call_key_error "quantity" "unit_price"
                         [MoreExamples.sale; MoreExamples.unpriced]
                         Examples.ufun12 Examples.awi12 eq_refl))).
  intros Hall. apply Forall_cons in Hall as [_ Hall]. apply Forall_cons in Hall as [Hu _].
  destruct Hu as (_ & _ & [v Hv]); [cbn; lia |]. vm_compute in Hv. discriminate.
Defined.

Lemma call_detached_witness :
  (UFun.__call__ "quantity" "unit_price"
     [MoreExamples.blank; MoreExamples.sale; MoreExamples.purchase] MoreExamples.orphan).1
  = Py.raise Py.AttributeError.
Proof.
  apply (proj2 (call_detached "quantity" "unit_price"
                  [MoreExamples.blank; MoreExamples.sale; MoreExamples.purchase]
                  MoreExamples.orphan eq_refl)
           [MoreExamples.blank] [MoreExamples.purchase] MoreExamples.sale eq_refl).
  - repeat constructor.
  - cbn. lia.
Defined.

Lemma call_permutation_witness :
  (UFun.__call__ "quantity" "unit_price"
     [MoreExamples.purchase; MoreExamples.sale; MoreExamples.cancelled] Examples.ufun12).1
  = Py.ret (-220).
Proof.
  apply (proj1 (call_permutation "quantity" "unit_price"
                  [MoreExamples.sale; MoreExamples.purchase; MoreExamples.cancelled]
                  [MoreExamples.purchase; MoreExamples.sale; MoreExamples.cancelled]
                  Examples.ufun12 Examples.awi12 eq_refl (perm_swap _ _ _) (-220))).
  vm_compute. reflexivity.
Defined.

Lemma call_app_baseline_witness :
  (UFun.__call__ "quantity" "unit_price"
     ([MoreExamples.purchase] ++ [MoreExamples.sale]) Examples.ufun12).1
  = (UFun.__call__ "quantity" "unit_price" [MoreExamples.sale]
       (Baseline.shift 10 0 100 0 Examples.ufun12)).1.
Proof.
  apply (call_app_baseline "quantity" "unit_price"
           [MoreExamples.purchase] [MoreExamples.sale] Examples.ufun12 Examples.awi12).
  - reflexivity.
  - repeat constructor; vm_compute; eauto.
Defined.

Lemma init_stores_witness :
  exists d,
    UFun.__init__ [ ("cost", UFun.VNum 2); ("owner", UFun.VObj {| Awi.awi := None |}) ]
    = Py.ret d
    /\ (forall k v,
          (k, v) ∈ [ ("cost", UFun.VNum 2); ("owner", UFun.VObj {| Awi.awi := None |}) ] ->
          d !! k = Some v)
    /\ (forall k dflt, (k, Some dflt) ∈ UFun.init_signature ->
          k ∉ [ ("cost", UFun.VNum 2); ("owner", UFun.VObj {| Awi.awi := None |}) ].*1 ->
          d !! k = Some dflt)
    /\ (forall k, is_Some (d !! k) <-> k ∈ UFun.init_signature.*1).
Proof.
  apply (init_stores [ ("cost", UFun.VNum 2); ("owner", UFun.VObj {| Awi.awi := None |}) ]);
    apply (bool_decide_unpack _); vm_compute; exact I.
Defined.

Lemma respond_first_other_witness :
  Adapter._respond_to_negotiation_request MoreExamples.always MoreExamples.named
    MoreExamples.seller_adapter (["a0"] ++ "b1" :: ["c2"])
  = inr (Some "b1").
Proof.
  apply (respond_first_other unit string MoreExamples.always MoreExamples.named
           MoreExamples.seller_adapter ["a0"] ["c2"] "b1").
  - repeat constructor.
  - discriminate.
Defined.

Lemma system_to_dict_witness :
  Adapter.to_dict (Adapter.system_init "SELLER" MoreExamples.system_adapter) !! "type"
  = Some (Adapter.VStr "System").
Proof.
  apply (system_to_dict unit "SELLER" MoreExamples.system_adapter eq_refl).
Defined.
